(** * seller-apis: stock and price reconciliation for Ozon and Yandex Market

    A shallow embedding of [seller.py] and [market.py].  Python values that
    the inventory spreadsheet can hold are a small sum type, dictionaries are
    finite maps, the list object [offer_ids] that [create_stocks] mutates in
    place is the state of a state-and-exception monad, and the external
    collaborators (catalog reads, inventory download, batch pushes, clock,
    standard output) are the fields of a record of operations on an abstract
    world.

    [market.py] does not load as shipped: the docstring of [update_stocks]
    on line 50 is indented by five columns and the statement on line 67 by
    four, which the tokenizer rejects with IndentationError.  The functions
    of [Module market] are the bodies of its [def]s as they are written; a
    run of the program is [market_script], which checks the indentation of
    the file first.

    Modelling limits, stated once:
    - [str] is a sequence of bytes (UTF-8).  [price_conversion] only looks at
      the ASCII characters '.' and '0'..'9', whose bytes never occur inside a
      multi-byte UTF-8 sequence, so it is exact on UTF-8 text.  [int] is
      exact on strings of ASCII characters; the non-ASCII digits and spaces
      that CPython also accepts, which depend on the Unicode tables of the
      interpreter, and its limit on the number of digits, are outside the
      model.  Statements about what [int] makes of an arbitrary string carry
      the hypothesis [ascii_text].
    - spreadsheet cells holding floats are outside the model.
    - the bodies of HTTP responses hold integers as their only numbers.
    - only exceptions deriving from [Exception] are modelled. *)

From Stdlib Require Import ZArith String Ascii DecimalString DecimalPos DecimalZ DecimalFacts.
From stdpp Require Import gmap strings list fin_maps.

Open Scope string_scope.
Open Scope list_scope.
Open Scope Z_scope.

(** ** Exceptions and outcomes *)

(** The exception classes the two modules can meet.  [ConnectTimeout] derives
    from [ConnectionError] in [requests]; [OtherException] stands for every
    other class deriving from [Exception]. *)
Inductive exn : Type :=
  | ReadTimeout
  | ConnectionError
  | ConnectTimeout
  | HTTPError
  | ValueError
  | TypeError
  | AttributeError
  | OtherException (name : string).

#[global] Instance exn_eq_dec : EqDecision exn.
Proof. solve_decision. Defined.

(** [isinstance(e, requests.exceptions.ReadTimeout)] *)
Definition is_ReadTimeout (e : exn) : bool :=
  match e with ReadTimeout => true | _ => false end.

(** [isinstance(e, requests.exceptions.ConnectionError)] *)
Definition is_ConnectionError (e : exn) : bool :=
  match e with ConnectionError | ConnectTimeout => true | _ => false end.

Inductive outcome (A : Type) : Type :=
  | Ret (a : A)
  | Raise (e : exn).
Arguments Ret {A} a.
Arguments Raise {A} e.

#[global] Instance outcome_ret : MRet outcome := @Ret.
#[global] Instance outcome_bind : MBind outcome := λ A B f m,
  match m with Ret a => f a | Raise e => Raise e end.

Definition returns {A} (o : outcome A) : Prop := ∃ a, o = Ret a.

(** ** The state-and-exception monad

    A computation reads and writes a state [S] and either returns or raises;
    the state survives a raise, as a mutated Python object does. *)

Definition SE (S A : Type) : Type := S → outcome A * S.

#[global] Instance SE_ret {S} : MRet (SE S) := λ A a s, (Ret a, s).
#[global] Instance SE_bind {S} : MBind (SE S) := λ A B f m s,
  match m s with
  | (Ret a, s') => f a s'
  | (Raise e, s') => (Raise e, s')
  end.

Definition lift {S A} (o : outcome A) : SE S A := λ s, (o, s).
Definition get_state {S} : SE S S := λ s, (Ret s, s).

(** [for x in xs: acc = body(x, acc)] *)
Fixpoint for_each {S A B} (xs : list A) (body : A → B → SE S B) (acc : B) : SE S B :=
  match xs with
  | [] => mret acc
  | x :: xs' => acc' ← body x acc; for_each xs' body acc'
  end.

(** ** Python values and built-ins *)

Inductive pyval : Type :=
  | PNone
  | PStr (s : string)
  | PInt (z : Z).

#[global] Instance pyval_eq_dec : EqDecision pyval.
Proof. solve_decision. Defined.

(** [d.get(k)]: [None] when the key is missing *)
Definition dict_get (d : gmap string pyval) (k : string) : pyval :=
  default PNone (d !! k).

(** [str(v)] *)
Definition str (v : pyval) : string :=
  match v with
  | PNone => "None"
  | PStr s => s
  | PInt z => NilZero.string_of_int (Z.to_int z)
  end.

Definition is_0_9 (c : ascii) : bool :=
  ((48 <=? N_of_ascii c) && (N_of_ascii c <=? 57))%N.

Definition digit_value (c : ascii) : Z := Z.of_N (N_of_ascii c) - 48.

(** White space that [int] skips at both ends of an ASCII string: TAB, LF,
    VT, FF, CR and SPACE.  (FS, GS, RS and US are white space for
    [str.strip], not for [int].) *)
Definition is_space (c : ascii) : bool :=
  let n := N_of_ascii c in
  (((9 <=? n) && (n <=? 13)) || (n =? 32))%N.

Fixpoint lstrip (l : list ascii) : list ascii :=
  match l with
  | c :: l' => if is_space c then lstrip l' else l
  | [] => []
  end.

Definition strip (l : list ascii) : list ascii :=
  reverse (lstrip (reverse (lstrip l))).

(** The digits of a decimal literal: at least one digit, and single
    underscores only between digits.  [int_literal] is [int] on a [str]:
    white space stripped at both ends, an optional sign, then the digits. *)
Fixpoint int_digits (l : list ascii) (acc : Z) (after_digit : bool) : option Z :=
  match l with
  | [] => if after_digit then Some acc else None
  | c :: l' =>
      if is_0_9 c then int_digits l' (10 * acc + digit_value c) true
      else if bool_decide (c = "_"%char) then
        (if after_digit then int_digits l' acc false else None)
      else None
  end.

Definition int_literal (s : string) : option Z :=
  match strip (list_ascii_of_string s) with
  | [] => None
  | c :: l =>
      if bool_decide (c = "-"%char) then Z.opp <$> int_digits l 0 false
      else if bool_decide (c = "+"%char) then int_digits l 0 false
      else int_digits (c :: l) 0 false
  end.

(** [int(v)] *)
Definition int (v : pyval) : outcome Z :=
  match v with
  | PNone => Raise TypeError
  | PInt z => Ret z
  | PStr s => match int_literal s with Some z => Ret z | None => Raise ValueError end
  end.

(** [s.split(sep)] for a one-character separator *)
Fixpoint split (s : string) (sep : ascii) : list string :=
  match s with
  | EmptyString => [EmptyString]
  | String c s' =>
      if bool_decide (c = sep) then EmptyString :: split s' sep
      else match split s' sep with
           | p :: ps => String c p :: ps
           | [] => [String c EmptyString]
           end
  end.

(** [re.sub("[^0-9]", "", s)] *)
Fixpoint re_sub_not_0_9 (s : string) : string :=
  match s with
  | EmptyString => EmptyString
  | String c s' => if is_0_9 c then String c (re_sub_not_0_9 s') else re_sub_not_0_9 s'
  end.

(** [x in l] *)
Definition list_in (x : string) (l : list string) : bool := bool_decide (x ∈ l).

(** What [l.remove(x)] leaves: the list without the first [x], if any. *)
Fixpoint remove_first (x : string) (l : list string) : option (list string) :=
  match l with
  | [] => None
  | y :: l' => if bool_decide (y = x) then Some l' else (y ::.) <$> remove_first x l'
  end.

(** [l.remove(x)] on the list object held in the state; a missing [x] raises
    [ValueError]. *)
Definition list_remove (x : string) : SE (list string) unit := λ l,
  match remove_first x l with
  | Some l' => (Ret tt, l')
  | None => (Raise ValueError, l)
  end.

(** [range(start, stop, step)] *)
Definition range_length (start stop step : Z) : Z :=
  if 0 <? step then (if start <? stop then (stop - start - 1) / step + 1 else 0)
  else (if stop <? start then (start - stop - 1) / (- step) + 1 else 0).

Definition range (start stop step : Z) : outcome (list Z) :=
  if step =? 0 then Raise ValueError
  else Ret ((λ k, start + Z.of_nat k * step) <$> seq 0 (Z.to_nat (range_length start stop step))).

(** [l[lo:hi]] *)
Definition slice_bound (len i : Z) : Z :=
  if i <? 0 then Z.max 0 (i + len) else Z.min i len.

Definition slice {A} (l : list A) (lo hi : Z) : list A :=
  let len := Z.of_nat (length l) in
  let lo' := slice_bound len lo in
  let hi' := slice_bound len hi in
  take (Z.to_nat (hi' - lo')) (drop (Z.to_nat lo') l).

(** ** seller.py: the Ozon integration *)

Module seller.

(** One element of the [stocks] payload: [{"offer_id": ..., "stock": ...}] *)
Record StockUpdate : Type := { offer_id : string; stock : Z }.

(** One element of the [prices] payload *)
Record PriceUpdate : Type := {
  auto_action_enabled : string;
  currency_code : string;
  price_offer_id : string;
  old_price : string;
  price : string
}.

#[global] Instance StockUpdate_eq_dec : EqDecision StockUpdate.
Proof. solve_decision. Defined.
#[global] Instance PriceUpdate_eq_dec : EqDecision PriceUpdate.
Proof. solve_decision. Defined.

(** The [if]/[elif]/[else] that turns the quantity cell of a matched record
    into a stock level. *)
Definition stock_of (watch : gmap string pyval) : outcome Z :=
  let count := str (dict_get watch "Количество") in
  if bool_decide (count = ">10") then Ret 100
  else if bool_decide (count = "1") then Ret 0
  else int (dict_get watch "Количество").

(** The body of the first [for] loop of [create_stocks]. *)
Definition stocks_body (watch : gmap string pyval) (stocks : list StockUpdate)
    : SE (list string) (list StockUpdate) :=
  offer_ids ← get_state;
  if list_in (str (dict_get watch "Код")) offer_ids then
    stock ← lift (stock_of watch);
    let stocks := stocks ++ [{| offer_id := str (dict_get watch "Код"); stock := stock |}] in
    list_remove (str (dict_get watch "Код"));;
    mret stocks
  else mret stocks.

(** [create_stocks(watch_remnants, offer_ids)]; the state is the caller's
    list object [offer_ids]. *)
Definition create_stocks (watch_remnants : list (gmap string pyval))
    : SE (list string) (list StockUpdate) :=
  stocks ← for_each watch_remnants stocks_body [];
  offer_ids ← get_state;
  for_each offer_ids
    (λ offer_id stocks, mret (stocks ++ [{| offer_id := offer_id; stock := 0 |}]))
    stocks.

(** [price_conversion(price)] *)
Definition price_conversion (price : string) : string :=
  re_sub_not_0_9 (hd EmptyString (split price ".")).

(** The method call [price.split] needs a [str]; [None] and [int] have no
    such attribute. *)
Definition expect_str (v : pyval) : outcome string :=
  match v with PStr s => Ret s | _ => Raise AttributeError end.

Definition prices_body (watch : gmap string pyval) (prices : list PriceUpdate)
    : SE (list string) (list PriceUpdate) :=
  offer_ids ← get_state;
  if list_in (str (dict_get watch "Код")) offer_ids then
    cell ← lift (expect_str (dict_get watch "Цена"));
    let price := {|
      auto_action_enabled := "UNKNOWN";
      currency_code := "RUB";
      price_offer_id := str (dict_get watch "Код");
      old_price := "0";
      price := price_conversion cell
    |} in
    mret (prices ++ [price])
  else mret prices.

(** [create_prices(watch_remnants, offer_ids)] *)
Definition create_prices (watch_remnants : list (gmap string pyval))
    : SE (list string) (list PriceUpdate) :=
  for_each watch_remnants prices_body [].

(** [list(divide(lst, n))]: the chunks the generator yields, in order. *)
Definition divide {A} (lst : list A) (n : Z) : outcome (list (list A)) :=
  range 0 (Z.of_nat (length lst)) n ≫= λ idx : list Z,
  Ret ((λ i, slice lst i (i + n)) <$> idx).

(** *** The collaborators and the orchestration

    Catalog reads, the inventory download and the batch pushes talk to the
    network; the model takes them as operations on an abstract world, each
    of which may return or raise.  [get_offer_ids] builds a new list object
    on every call. *)

Inductive printable : Type :=
  | Text (s : string)
  | Exc (e : exn).

Record Collaborators (World : Type) : Type := {
  env_str : string → outcome string;
  get_offer_ids : string → string → SE World (list string);
  download_stock : SE World (list (gmap string pyval));
  update_stocks : list StockUpdate → string → string → SE World unit;
  update_price : list PriceUpdate → string → string → SE World unit;
  print : list printable → World → World
}.
Arguments env_str {World} _ _.
Arguments get_offer_ids {World} _ _ _ _.
Arguments download_stock {World} _ _.
Arguments update_stocks {World} _ _ _ _ _.
Arguments update_price {World} _ _ _ _ _.
Arguments print {World} _ _ _.

(** A call that passes the list object [obj] to [f]: the result comes back
    together with what the object holds afterwards. *)
Definition call_on {World A} (obj : list string) (f : SE (list string) A)
    : SE World (A * list string) := λ w,
  match f obj with
  | (Ret a, obj') => (Ret (a, obj'), w)
  | (Raise e, _) => (Raise e, w)
  end.

Section orchestration.
Context {World : Type} (c : Collaborators World).

(** The body of [async def upload_prices] *)
Definition upload_prices (watch_remnants : list (gmap string pyval))
    (client_id seller_token : string) : SE World (list PriceUpdate) :=
  offer_ids ← get_offer_ids c client_id seller_token;
  '(prices, _) ← call_on offer_ids (create_prices watch_remnants);
  batches ← lift (divide prices 1000);
  for_each batches (λ some_price _, update_price c some_price client_id seller_token) tt;;
  mret prices.

(** The [try] block of [main] *)
Definition main_try (client_id seller_token : string) : SE World unit :=
  offer_ids ← get_offer_ids c client_id seller_token;
  watch_remnants ← download_stock c;
  '(stocks, offer_ids) ← call_on offer_ids (create_stocks watch_remnants);
  batches ← lift (divide stocks 100);
  for_each batches (λ some_stock _, update_stocks c some_stock client_id seller_token) tt;;
  '(prices, offer_ids) ← call_on offer_ids (create_prices watch_remnants);
  batches ← lift (divide prices 900);
  for_each batches (λ some_price _, update_price c some_price client_id seller_token) tt.

(** The three [except] clauses of [main], tried in order. *)
Definition main_except (e : exn) : list printable :=
  if is_ReadTimeout e then [Text "Превышено время ожидания..."]
  else if is_ConnectionError e then [Exc e; Text "Ошибка соединения"]
  else [Exc e; Text "ERROR_2"].

(** [try: body except ...]: whatever [body] raises is printed by the first
    clause that matches, and the statement completes normally. *)
Definition try_except (body : SE World unit) : SE World unit := λ w,
  match body w with
  | (Ret _, w') => (Ret tt, w')
  | (Raise e, w') => (Ret tt, print c (main_except e) w')
  end.

Definition main : SE World unit :=
  seller_token ← lift (env_str c "SELLER_TOKEN");
  client_id ← lift (env_str c "CLIENT_ID");
  try_except (main_try client_id seller_token).
End orchestration.

End seller.

(** ** market.py: the Yandex Market integration

    [divide], [price_conversion] and [download_stock] are imported from
    [seller]. *)

Module market.

Record Item : Type := { count : Z; type : string; updatedAt : string }.

(** One element of the [skus] payload *)
Record StockUpdate : Type := { sku : string; warehouseId : string; items : list Item }.

Record Price : Type := { value : Z; currencyId : string }.

(** One element of the [offers] payload *)
Record PriceUpdate : Type := { id : string; price : Price }.

#[global] Instance Item_eq_dec : EqDecision Item.
Proof. solve_decision. Defined.
#[global] Instance StockUpdate_eq_dec : EqDecision StockUpdate.
Proof. solve_decision. Defined.
#[global] Instance Price_eq_dec : EqDecision Price.
Proof. solve_decision. Defined.
#[global] Instance PriceUpdate_eq_dec : EqDecision PriceUpdate.
Proof. solve_decision. Defined.

Definition stock_of (watch : gmap string pyval) : outcome Z :=
  let count := str (dict_get watch "Количество") in
  if bool_decide (count = ">10") then Ret 100
  else if bool_decide (count = "1") then Ret 0
  else int (dict_get watch "Количество").

(** The body of the first [for] loop of [create_stocks]. *)
Definition stocks_body (warehouse_id date : string)
    (watch : gmap string pyval) (stocks : list StockUpdate)
    : SE (list string) (list StockUpdate) :=
  offer_ids ← get_state;
  if list_in (str (dict_get watch "Код")) offer_ids then
    stock ← lift (stock_of watch);
    let stocks := stocks ++ [{|
      sku := str (dict_get watch "Код");
      warehouseId := warehouse_id;
      items := [{| count := stock; type := "FIT"; updatedAt := date |}]
    |}] in
    list_remove (str (dict_get watch "Код"));;
    mret stocks
  else mret stocks.

(** [create_stocks(watch_remnants, offer_ids, warehouse_id)]; the state is
    the caller's list object [offer_ids], and [date] is what
    [str(datetime.datetime.utcnow().replace(microsecond=0).isoformat() + "Z")]
    evaluates to when the call starts. *)
Definition create_stocks (watch_remnants : list (gmap string pyval))
    (warehouse_id date : string) : SE (list string) (list StockUpdate) :=
  stocks ← for_each watch_remnants (stocks_body warehouse_id date) [];
  offer_ids ← get_state;
  for_each offer_ids
    (λ offer_id stocks, mret (stocks ++ [{|
       sku := offer_id;
       warehouseId := warehouse_id;
       items := [{| count := 0; type := "FIT"; updatedAt := date |}]
     |}]))
    stocks.

Definition prices_body (watch : gmap string pyval) (prices : list PriceUpdate)
    : SE (list string) (list PriceUpdate) :=
  offer_ids ← get_state;
  if list_in (str (dict_get watch "Код")) offer_ids then
    cell ← lift (seller.expect_str (dict_get watch "Цена"));
    value ← lift (int (PStr (seller.price_conversion cell)));
    let price := {|
      id := str (dict_get watch "Код");
      price := {| value := value; currencyId := "RUR" |}
    |} in
    mret (prices ++ [price])
  else mret prices.

(** [create_prices(watch_remnants, offer_ids)] *)
Definition create_prices (watch_remnants : list (gmap string pyval))
    : SE (list string) (list PriceUpdate) :=
  for_each watch_remnants prices_body [].

(** *** The collaborators and the orchestration *)

Record Collaborators (World : Type) : Type := {
  env_str : string → outcome string;
  utcnow : World → string * World;
  get_offer_ids : string → string → SE World (list string);
  download_stock : SE World (list (gmap string pyval));
  update_stocks : list StockUpdate → string → string → SE World unit;
  update_price : list PriceUpdate → string → string → SE World unit;
  print : list seller.printable → World → World
}.
Arguments env_str {World} _ _.
Arguments utcnow {World} _ _.
Arguments get_offer_ids {World} _ _ _ _.
Arguments download_stock {World} _ _.
Arguments update_stocks {World} _ _ _ _ _.
Arguments update_price {World} _ _ _ _ _.
Arguments print {World} _ _ _.

(** Calling an [async def] function builds a coroutine object and runs
    nothing; the body runs only when the coroutine is awaited. *)
Inductive Coroutine (World A : Type) : Type :=
  | coroutine (body : SE World A).
Arguments coroutine {World A} body.

Definition call_async {World A} (body : SE World A) : SE World (Coroutine World A) :=
  mret (coroutine body).

Section orchestration.
Context {World : Type} (c : Collaborators World).

(** [create_stocks] called on the list object [obj]; the call reads the
    clock before its first loop. *)
Definition call_create_stocks (obj : list string)
    (watch_remnants : list (gmap string pyval)) (warehouse_id : string)
    : SE World (list StockUpdate * list string) := λ w,
  let '(date, w') := utcnow c w in
  seller.call_on obj (create_stocks watch_remnants warehouse_id date) w'.

(** The body of [async def upload_prices] *)
Definition upload_prices (watch_remnants : list (gmap string pyval))
    (campaign_id market_token : string) : SE World (list PriceUpdate) :=
  offer_ids ← get_offer_ids c campaign_id market_token;
  '(prices, _) ← seller.call_on offer_ids (create_prices watch_remnants);
  batches ← lift (seller.divide prices 500);
  for_each batches (λ some_prices _, update_price c some_prices campaign_id market_token) tt;;
  mret prices.

(** The [try] block of [main]: the FBS campaign, then the DBS campaign.
    Each [upload_prices(...)] is a call of an [async def] function whose
    result is dropped. *)
Definition main_try (watch_remnants : list (gmap string pyval))
    (market_token campaign_fbs_id campaign_dbs_id warehouse_fbs_id warehouse_dbs_id : string)
    : SE World unit :=
  offer_ids ← get_offer_ids c campaign_fbs_id market_token;
  '(stocks, offer_ids) ← call_create_stocks offer_ids watch_remnants warehouse_fbs_id;
  batches ← lift (seller.divide stocks 2000);
  for_each batches
    (λ some_stock _, update_stocks c some_stock campaign_fbs_id market_token) tt;;
  call_async (upload_prices watch_remnants campaign_fbs_id market_token);;
  offer_ids ← get_offer_ids c campaign_dbs_id market_token;
  '(stocks, offer_ids) ← call_create_stocks offer_ids watch_remnants warehouse_dbs_id;
  batches ← lift (seller.divide stocks 2000);
  for_each batches
    (λ some_stock _, update_stocks c some_stock campaign_dbs_id market_token) tt;;
  call_async (upload_prices watch_remnants campaign_dbs_id market_token);;
  mret tt.

Definition main_except (e : exn) : list seller.printable :=
  if is_ReadTimeout e then [seller.Text "Превышено время ожидания..."]
  else if is_ConnectionError e then [seller.Exc e; seller.Text "Ошибка соединения"]
  else [seller.Exc e; seller.Text "ERROR_2"].

Definition try_except (body : SE World unit) : SE World unit := λ w,
  match body w with
  | (Ret _, w') => (Ret tt, w')
  | (Raise e, w') => (Ret tt, print c (main_except e) w')
  end.

(** The body of [def main()].  The module that holds it does not load as
    shipped: a run of the program is [market_script], below. *)
Definition main : SE World unit :=
  market_token ← lift (env_str c "MARKET_TOKEN");
  campaign_fbs_id ← lift (env_str c "FBS_ID");
  campaign_dbs_id ← lift (env_str c "DBS_ID");
  warehouse_fbs_id ← lift (env_str c "WAREHOUSE_FBS_ID");
  warehouse_dbs_id ← lift (env_str c "WAREHOUSE_DBS_ID");
  watch_remnants ← download_stock c;
  try_except (main_try watch_remnants market_token campaign_fbs_id campaign_dbs_id
                warehouse_fbs_id warehouse_dbs_id).
End orchestration.

End market.

(** * Loading a module

    Python compiles a file before it runs any statement of it.  The
    tokenizer keeps a stack of indentation columns, with 0 at the bottom: a
    logical line indented deeper than the column on top pushes its own
    column; a line indented less pops every column deeper than its own and
    must then stand at the column on top.  When it does not, the file is
    rejected with [IndentationError] (unindent does not match any outer
    indentation level) and no statement of it runs.  This is the one check
    of the compiler that is modelled. *)

Definition IndentationError : exn := OtherException "IndentationError".

Fixpoint dedent (col : nat) (stack : list nat) : outcome (list nat) :=
  match stack with
  | [] => Raise IndentationError
  | top :: below =>
      if (col <? top)%nat then dedent col below
      else if (col =? top)%nat then Ret stack
      else Raise IndentationError
  end.

(** One logical line that starts at column [col] *)
Definition indent_line (stack : list nat) (col : nat) : outcome (list nat) :=
  match stack with
  | [] => Raise IndentationError
  | top :: _ => if (top <? col)%nat then Ret (col :: stack) else dedent col stack
  end.

(** The logical lines of a file are given as pairs of the number of the
    physical line on which the logical line starts and the column of its
    first token. *)
Fixpoint check_indentation (stack : list nat) (lines : list (nat * nat)) : outcome unit :=
  match lines with
  | [] => Ret tt
  | (_, col) :: lines => stack ← indent_line stack col; check_indentation stack lines
  end.

Definition load_module (lines : list (nat * nat)) : outcome unit :=
  check_indentation [0%nat] lines.

(** The logical lines of [market.py].  Lines inside a docstring or inside
    brackets start no logical line.  Line 50, the docstring of
    [update_stocks], starts at column 5; the next statement of that
    function, on line 67, starts at column 4. *)
Definition market_py_lines : list (nat * nat) :=
  ([(1, 0); (2, 0); (3, 0); (4, 0); (6, 0); (8, 0); (10, 0); (13, 0); (14, 4); (31, 4);
   (32, 4); (38, 4); (42, 4); (43, 4); (44, 4); (45, 4); (46, 4); (49, 0); (50, 5);
   (67, 4); (68, 4); (74, 4); (75, 4); (76, 4); (77, 4); (78, 4); (79, 4); (82, 0);
   (83, 4); (100, 4); (101, 4); (107, 4); (108, 4); (109, 4); (110, 4); (111, 4);
   (112, 4); (115, 0); (116, 4); (132, 4); (133, 4); (134, 4); (135, 8); (136, 8);
   (137, 8); (138, 8); (139, 12); (140, 4); (141, 4); (142, 8); (143, 4); (146, 0);
   (147, 4); (165, 4); (166, 4); (167, 4); (168, 8); (169, 12); (170, 12); (171, 16);
   (172, 12); (173, 16); (174, 12); (175, 16); (176, 12); (189, 12); (191, 4);
   (192, 8); (205, 4); (208, 0); (209, 4); (225, 4); (226, 4); (227, 8); (228, 12);
   (240, 12); (241, 4); (244, 0); (245, 4); (246, 4); (247, 4); (248, 8); (249, 4);
   (252, 0); (253, 4); (254, 4); (255, 4); (256, 8); (257, 4); (260, 4); (263, 0);
   (264, 4); (265, 4); (266, 4); (267, 4); (268, 4); (269, 4); (271, 4); (272, 4);
   (274, 8); (276, 8); (277, 8); (278, 12); (280, 8); (283, 8); (285, 8); (286, 8);
   (287, 12); (289, 8); (290, 4); (291, 8); (292, 4); (293, 8); (294, 4); (295, 8);
   (298, 0); (299, 4)])%nat.

(** The same lines with line [line] moved to column [col] *)
Definition reindent (line col : nat) (lines : list (nat * nat)) : list (nat * nat) :=
  (λ l, if bool_decide (l.1 = line) then (line, col) else l) <$> lines.

(** [python market.py]: the file is compiled, then its statements run, and
    the last of them calls [main()]. *)
Definition market_script {World} (lines : list (nat * nat))
    (c : market.Collaborators World) : SE World unit :=
  lift (load_module lines);; market.main c.

(** * Definitions used in the statements *)

(** ** The stock loop, in direct style

    Both [create_stocks] functions run the same two loops and differ only in
    the shape of the entries; [matched_pass] is the first loop over pairs of
    an identifier and a quantity. *)

Definition code (watch : gmap string pyval) : string := str (dict_get watch "Код").

(** The first inventory record that carries a given code *)
Definition first_record (ws : list (gmap string pyval)) (offer : string)
    : option (gmap string pyval) :=
  head (filter (λ w, code w = offer) ws).

Fixpoint matched_pass (ws : list (gmap string pyval)) (st : list string)
    : outcome (list (string * Z)) * list string :=
  match ws with
  | [] => (Ret [], st)
  | w :: ws' =>
      if list_in (code w) st then
        match seller.stock_of w with
        | Ret q =>
            match remove_first (code w) st with
            | Some st1 =>
                match matched_pass ws' st1 with
                | (Ret m, st2) => (Ret ((code w, q) :: m), st2)
                | (Raise e, st2) => (Raise e, st2)
                end
            | None => (Raise ValueError, st)
            end
        | Raise e => (Raise e, st)
        end
      else matched_pass ws' st
  end.

(** The two loops of [create_stocks], for any shape [mk] of the entries *)
Definition gen_stocks_body {E} (mk : string → Z → E)
    (watch : gmap string pyval) (stocks : list E) : SE (list string) (list E) :=
  offer_ids ← get_state;
  if list_in (str (dict_get watch "Код")) offer_ids then
    stock ← lift (seller.stock_of watch);
    let stocks := stocks ++ [mk (str (dict_get watch "Код")) stock] in
    list_remove (str (dict_get watch "Код"));;
    mret stocks
  else mret stocks.

Definition gen_create_stocks {E} (mk : string → Z → E)
    (ws : list (gmap string pyval)) : SE (list string) (list E) :=
  stocks ← for_each ws (gen_stocks_body mk) [];
  offer_ids ← get_state;
  for_each offer_ids (λ offer_id stocks, mret (stocks ++ [mk offer_id 0])) stocks.

Definition seller_entry (p : string * Z) : seller.StockUpdate :=
  {| seller.offer_id := p.1; seller.stock := p.2 |}.

Definition market_entry (warehouse_id date : string) (p : string * Z) : market.StockUpdate :=
  {| market.sku := p.1;
     market.warehouseId := warehouse_id;
     market.items := [{| market.count := p.2; market.type := "FIT";
                         market.updatedAt := date |}] |}.

(** What [create_stocks] returns, entries aside *)
Definition reconcile (ws : list (gmap string pyval)) (st : list string)
    : outcome (list (string * Z)) * list string :=
  match matched_pass ws st with
  | (Ret m, st') => (Ret (m ++ ((λ i, (i, 0)) <$> st')), st')
  | (Raise e, st') => (Raise e, st')
  end.

Definition map_outcome {A B} (f : A → B) (r : outcome (list A) * list string)
    : outcome (list B) * list string :=
  match r with
  | (Ret l, st) => (Ret (f <$> l), st)
  | (Raise e, st) => (Raise e, st)
  end.

(** Every known identifier occurs once among the pairs; a pair whose
    identifier some inventory record carries has the quantity of the first
    such record, and every other pair has quantity 0. *)
Definition exactly_once (ws : list (gmap string pyval)) (offers : list string)
    (pairs : list (string * Z)) : Prop :=
  pairs.*1 ≡ₚ offers ∧
  ∀ i q, (i, q) ∈ pairs →
    match first_record ws i with
    | Some w => seller.stock_of w = Ret q
    | None => q = 0
    end.

Definition seller_pair (s : seller.StockUpdate) : string * Z :=
  (seller.offer_id s, seller.stock s).

(** The inventory and the catalog of the end-to-end scenario *)
Definition scenario_record : gmap string pyval :=
  {[ "Код" := PStr "A"; "Количество" := PStr ">10"; "Цена" := PStr "100.00 р." ]}.

Definition scenario_offers : list string := ["A"; "B"; "C"].

(** ** Integer literals, in the words of the language reference

    What [int] accepts from a string of ASCII characters: decimal digits
    with single underscores between them, an optional sign directly before
    them, and white space around the whole.  These definitions use nothing
    of the model of [int]: the white space and the digits are listed. *)


(** TAB, LF, VT, FF, CR and SPACE, by their codes *)
Definition white_space (c : ascii) : Prop :=
  N_of_ascii c ∈ [9; 10; 11; 12; 13; 32]%N.

(** The ten digits and their values *)
Definition digit (c : ascii) (d : Z) : Prop :=
  (c, d) ∈ [("0"%char, 0); ("1"%char, 1); ("2"%char, 2); ("3"%char, 3); ("4"%char, 4);
            ("5"%char, 5); ("6"%char, 6); ("7"%char, 7); ("8"%char, 8); ("9"%char, 9)].

(** [decimal_digits l v]: [l] is one digit or more, with single underscores
    between digits only, and [v] is its value in base ten. *)
Inductive decimal_digits : list ascii → Z → Prop :=
  | decimal_digit c d :
      digit c d → decimal_digits [c] d
  | decimal_more l v c d :
      decimal_digits l v → digit c d →
      decimal_digits (l ++ [c]) (10 * v + d)
  | decimal_underscore l v c d :
      decimal_digits l v → digit c d →
      decimal_digits (l ++ ["_"%char; c]) (10 * v + d).

Inductive signed_digits : list ascii → Z → Prop :=
  | signed_none l v : decimal_digits l v → signed_digits l v
  | signed_plus l v : decimal_digits l v → signed_digits ("+"%char :: l) v
  | signed_minus l v : decimal_digits l v → signed_digits ("-"%char :: l) (- v).

(** [denotes s z]: the string [s] is a literal of the integer [z]. *)
Definition denotes (s : string) (z : Z) : Prop :=
  ∃ before body after,
    list_ascii_of_string s = before ++ body ++ after ∧
    Forall white_space before ∧ Forall white_space after ∧
    signed_digits body z.


(** Two outcomes agree up to the order of the returned list. *)
Definition same_up_to_order {A} (r1 r2 : outcome (list A)) : Prop :=
  match r1, r2 with
  | Ret l1, Ret l2 => l1 ≡ₚ l2
  | Raise e1, Raise e2 => e1 = e2
  | _, _ => False
  end.

(** The same update with another time stamp *)
Definition restamp (date : string) (s : market.StockUpdate) : market.StockUpdate :=
  {| market.sku := market.sku s;
     market.warehouseId := market.warehouseId s;
     market.items :=
       (λ it, {| market.count := market.count it; market.type := market.type it;
                 market.updatedAt := date |}) <$> market.items s |}.

Definition restamp_all (date : string) (r : outcome (list market.StockUpdate))
    : outcome (list market.StockUpdate) :=
  match r with Ret l => Ret (restamp date <$> l) | Raise e => Raise e end.

(** The text before the first decimal point *)
Fixpoint before_first_point (l : list ascii) : list ascii :=
  match l with
  | [] => []
  | c :: l' => if bool_decide (c = "."%char) then [] else c :: before_first_point l'
  end.

(** The specification of [price_conversion], in the words of the contract:
    take the text before the first decimal point and delete every character
    that is not an ASCII digit. *)
Definition digits_before_first_point (s : string) : string :=
  string_of_list_ascii
    (filter (λ c, is_0_9 c = true) (before_first_point (list_ascii_of_string s))).

Definition no_digit_before_first_point (s : string) : Prop :=
  Forall (λ c, is_0_9 c = false) (before_first_point (list_ascii_of_string s)).

(** [collect f l]: the results of [f] on the elements of [l], in order, up
    to the first raise *)
Fixpoint collect {A B} (f : A → outcome B) (l : list A) : outcome (list B) :=
  match l with
  | [] => Ret []
  | x :: l' =>
      match f x with
      | Ret b => match collect f l' with Ret bs => Ret (b :: bs) | Raise e => Raise e end
      | Raise e => Raise e
      end
  end.

(** The [PriceUpdate] that [seller.create_prices] builds for a record *)
Definition seller_price_of (w : gmap string pyval) : outcome seller.PriceUpdate :=
  cell ← seller.expect_str (dict_get w "Цена");
  Ret {| seller.auto_action_enabled := "UNKNOWN";
         seller.currency_code := "RUB";
         seller.price_offer_id := code w;
         seller.old_price := "0";
         seller.price := seller.price_conversion cell |}.

(** The [PriceUpdate] that [market.create_prices] builds for a record *)
Definition market_price_of (w : gmap string pyval) : outcome market.PriceUpdate :=
  cell ← seller.expect_str (dict_get w "Цена");
  value ← int (PStr (seller.price_conversion cell));
  Ret {| market.id := code w;
         market.price := {| market.value := value; market.currencyId := "RUR" |} |}.

(** The inventory records whose code is in the list of identifiers *)
Definition known_records (ws : list (gmap string pyval)) (offers : list string)
    : list (gmap string pyval) :=
  filter (λ w, code w ∈ offers) ws.

(** The loop of [create_prices], for any way [price_of] of building the
    update of a record *)
Definition gen_prices_body {P} (price_of : gmap string pyval → outcome P)
    (watch : gmap string pyval) (prices : list P) : SE (list string) (list P) :=
  offer_ids ← get_state;
  if list_in (str (dict_get watch "Код")) offer_ids then
    price ← lift (price_of watch);
    mret (prices ++ [price])
  else mret prices.

(** ** Runs that record what is sent

    A world that is the log of the batches sent and the lines printed; the
    catalog and the inventory are fixed, and no call fails. *)

Inductive seller_event : Type :=
  | SellerStocks (batch : list seller.StockUpdate)
  | SellerPrices (batch : list seller.PriceUpdate)
  | SellerPrinted (line : list seller.printable).

Definition seller_run (catalog : list string) (inventory : list (gmap string pyval))
    : seller.Collaborators (list seller_event) :=
  {| seller.env_str := λ _, Ret "secret";
     seller.get_offer_ids := λ _ _ log, (Ret catalog, log);
     seller.download_stock := λ log, (Ret inventory, log);
     seller.update_stocks := λ batch _ _ log, (Ret tt, log ++ [SellerStocks batch]);
     seller.update_price := λ batch _ _ log, (Ret tt, log ++ [SellerPrices batch]);
     seller.print := λ line log, log ++ [SellerPrinted line] |}.

Inductive market_event : Type :=
  | MarketStocks (campaign_id : string) (batch : list market.StockUpdate)
  | MarketPrices (campaign_id : string) (batch : list market.PriceUpdate)
  | MarketPrinted (line : list seller.printable).

Definition market_run (catalog : list string) (inventory : list (gmap string pyval))
    : market.Collaborators (list market_event) :=
  {| market.env_str := λ name, Ret name;
     market.utcnow := λ log, ("2024-01-01T00:00:00Z", log);
     market.get_offer_ids := λ _ _ log, (Ret catalog, log);
     market.download_stock := λ log, (Ret inventory, log);
     market.update_stocks := λ batch campaign_id _ log,
       (Ret tt, log ++ [MarketStocks campaign_id batch]);
     market.update_price := λ batch campaign_id _ log,
       (Ret tt, log ++ [MarketPrices campaign_id batch]);
     market.print := λ line log, log ++ [MarketPrinted line] |}.

(** Runs in which the inventory download fails with a connection error *)
Definition seller_offline : seller.Collaborators (list seller_event) :=
  {| seller.env_str := λ _, Ret "secret";
     seller.get_offer_ids := λ _ _ log, (Ret scenario_offers, log);
     seller.download_stock := λ log, (Raise ConnectionError, log);
     seller.update_stocks := λ batch _ _ log, (Ret tt, log ++ [SellerStocks batch]);
     seller.update_price := λ batch _ _ log, (Ret tt, log ++ [SellerPrices batch]);
     seller.print := λ line log, log ++ [SellerPrinted line] |}.

Definition market_offline : market.Collaborators (list market_event) :=
  {| market.env_str := λ name, Ret name;
     market.utcnow := λ log, ("2024-01-01T00:00:00Z", log);
     market.get_offer_ids := λ _ _ log, (Ret scenario_offers, log);
     market.download_stock := λ log, (Raise ConnectionError, log);
     market.update_stocks := λ batch campaign_id _ log,
       (Ret tt, log ++ [MarketStocks campaign_id batch]);
     market.update_price := λ batch campaign_id _ log,
       (Ret tt, log ++ [MarketPrices campaign_id batch]);
     market.print := λ line log, log ++ [MarketPrinted line] |}.

(** The same collaborators with another [update_price] *)
Definition seller_with_update_price {World} (c : seller.Collaborators World)
    (up : list seller.PriceUpdate → string → string → SE World unit)
    : seller.Collaborators World :=
  {| seller.env_str := seller.env_str c;
     seller.get_offer_ids := seller.get_offer_ids c;
     seller.download_stock := seller.download_stock c;
     seller.update_stocks := seller.update_stocks c;
     seller.update_price := up;
     seller.print := seller.print c |}.

Definition market_with_update_price {World} (c : market.Collaborators World)
    (up : list market.PriceUpdate → string → string → SE World unit)
    : market.Collaborators World :=
  {| market.env_str := market.env_str c;
     market.utcnow := market.utcnow c;
     market.get_offer_ids := market.get_offer_ids c;
     market.download_stock := market.download_stock c;
     market.update_stocks := market.update_stocks c;
     market.update_price := up;
     market.print := market.print c |}.

(** * The upload entry points and runs with a failing push *)

(** The pair of a code and a quantity that a matched record contributes *)
Definition stock_pair_of (w : gmap string pyval) : outcome (string * Z) :=
  q ← seller.stock_of w; Ret (code w, q).

(** The body of [async def upload_stocks] of [seller.py] *)
Definition seller_upload_stocks {World} (c : seller.Collaborators World)
    (watch_remnants : list (gmap string pyval)) (client_id seller_token : string)
    : SE World (list seller.StockUpdate * list seller.StockUpdate) :=
  offer_ids ← seller.get_offer_ids c client_id seller_token;
  '(stocks, _) ← seller.call_on offer_ids (seller.create_stocks watch_remnants);
  batches ← lift (seller.divide stocks 100);
  for_each batches
    (λ some_stock _, seller.update_stocks c some_stock client_id seller_token) tt;;
  let not_empty := filter (λ stock, seller.stock stock ≠ 0) stocks in
  mret (not_empty, stocks).

(** [l[0]] *)
Definition index0 {A} (l : list A) : outcome A :=
  match l with
  | x :: _ => Ret x
  | [] => Raise (OtherException "IndexError")
  end.

(** [list(filter(p, l))] for a predicate that may raise *)
Fixpoint filter_raising {A} (p : A → outcome bool) (l : list A) : outcome (list A) :=
  match l with
  | [] => Ret []
  | x :: l' =>
      match p x with
      | Ret b =>
          match filter_raising p l' with
          | Ret r => Ret (if b then x :: r else r)
          | Raise e => Raise e
          end
      | Raise e => Raise e
      end
  end.

(** [lambda stock: stock.get("items")[0].get("count") != 0] *)
Definition market_has_stock (stock : market.StockUpdate) : outcome bool :=
  item ← index0 (market.items stock);
  Ret (bool_decide (market.count item ≠ 0)).

(** The body of [async def upload_stocks] of [market.py] *)
Definition market_upload_stocks {World} (c : market.Collaborators World)
    (watch_remnants : list (gmap string pyval))
    (campaign_id market_token warehouse_id : string)
    : SE World (list market.StockUpdate * list market.StockUpdate) :=
  offer_ids ← market.get_offer_ids c campaign_id market_token;
  '(stocks, _) ← market.call_create_stocks c offer_ids watch_remnants warehouse_id;
  batches ← lift (seller.divide stocks 2000);
  for_each batches
    (λ some_stock _, market.update_stocks c some_stock campaign_id market_token) tt;;
  not_empty ← lift (filter_raising market_has_stock stocks);
  mret (not_empty, stocks).

(** A run like [seller_run] in which the push of stocks raises [e] once [k]
    batches have been sent. *)
Definition seller_failing_push (catalog : list string)
    (inventory : list (gmap string pyval)) (k : nat) (e : exn)
    : seller.Collaborators (list seller_event) :=
  {| seller.env_str := λ _, Ret "secret";
     seller.get_offer_ids := λ _ _ log, (Ret catalog, log);
     seller.download_stock := λ log, (Ret inventory, log);
     seller.update_stocks := λ batch _ _ log,
       if bool_decide (length log = k) then (Raise e, log)
       else (Ret tt, log ++ [SellerStocks batch]);
     seller.update_price := λ batch _ _ log, (Ret tt, log ++ [SellerPrices batch]);
     seller.print := λ line log, log ++ [SellerPrinted line] |}.

(** * Reading the catalog page by page

    [get_product_list] and [get_offer_ids] of both modules.  The values are
    those that [response.json()] builds: a dict is the list of its items in
    insertion order, with distinct keys; numbers are the integers. *)

Unset Elimination Schemes.
Inductive json : Type :=
  | JNone
  | JBool (b : bool)
  | JInt (z : Z)
  | JStr (s : string)
  | JList (l : list json)
  | JDict (d : list (string * json)).
Set Elimination Schemes.

Fixpoint assoc (k : string) (d : list (string * json)) : json :=
  match d with
  | [] => JNone
  | (k', v) :: d' => if bool_decide (k' = k) then v else assoc k d'
  end.

(** [o.get(k)]: only a dict has the method. *)
Definition json_get (o : json) (k : string) : outcome json :=
  match o with
  | JDict d => Ret (assoc k d)
  | _ => Raise AttributeError
  end.

(** The characters of a string held as UTF-8: a byte of the form 10xxxxxx
    continues the character of the byte before it. *)
Definition is_continuation (c : ascii) : bool :=
  let n := N_of_ascii c in ((128 <=? n) && (n <? 192))%N.

Fixpoint characters (l : list ascii) : list string :=
  match l with
  | [] => []
  | c :: l' =>
      match characters l' with
      | String c' ch :: chs =>
          if is_continuation c' then String c (String c' ch) :: chs
          else String c EmptyString :: String c' ch :: chs
      | chs => String c EmptyString :: chs
      end
  end.

(** The elements that [list.extend(o)] appends: those of a list, the
    characters of a string, the keys of a dict; nothing else is iterable. *)
Definition iterate (o : json) : outcome (list json) :=
  match o with
  | JList l => Ret l
  | JStr s => Ret (JStr <$> characters (list_ascii_of_string s))
  | JDict d => Ret ((λ kv, JStr kv.1) <$> d)
  | _ => Raise TypeError
  end.

(** [o == n] for an integer [n] *)
Definition eq_int (o : json) (n : Z) : bool :=
  match o with
  | JInt z => bool_decide (z = n)
  | JBool b => bool_decide ((if b then 1 else 0) = n)
  | _ => false
  end.

(** The truth value of [o], as [not o] tests it *)
Definition truthy (o : json) : bool :=
  match o with
  | JNone => false
  | JBool b => b
  | JInt z => bool_decide (z ≠ 0)
  | JStr s => bool_decide (s ≠ "")
  | JList l => bool_decide (l ≠ [])
  | JDict d => bool_decide (d ≠ [])
  end.

Inductive http_verb : Type := GET | POST.

(** A request: [payload] is the [json=] body of a POST and the [params=] of
    a GET. *)
Record Request : Type := {
  verb : http_verb;
  url : string;
  headers : list (string * string);
  payload : json
}.

(** The network, as the code uses it: [http r] sends the request, calls
    [raise_for_status()] on the response and decodes its body with
    [.json()]; each of the three may raise. *)
Definition Http (World : Type) : Type := Request → SE World json.

(** A loop that may not end: [None] when the fuel runs out first. *)
Definition Loop (World A : Type) : Type := World → option (outcome A * World).

(** ** seller.py *)

Definition seller_product_list_request (last_id : json) (client_id seller_token : string)
    : Request :=
  {| verb := POST;
     url := "https://api-seller.ozon.ru/v2/product/list";
     headers := [("Client-Id", client_id); ("Api-Key", seller_token)];
     payload := JDict [("filter", JDict [("visibility", JStr "ALL")]);
                       ("last_id", last_id);
                       ("limit", JInt 1000)] |}.

Definition seller_get_product_list {World} (http : Http World)
    (last_id : json) (client_id seller_token : string) : SE World json :=
  response_object ← http (seller_product_list_request last_id client_id seller_token);
  lift (json_get response_object "result").

(** The [while True] loop of [get_offer_ids] *)
Fixpoint seller_product_pages {World} (http : Http World) (fuel : nat)
    (last_id : json) (product_list : list json) (client_id seller_token : string)
    : Loop World (list json) := λ w,
  match fuel with
  | O => None
  | S fuel =>
      match seller_get_product_list http last_id client_id seller_token w with
      | (Ret some_prod, w) =>
          match json_get some_prod "items" ≫= iterate with
          | Ret more =>
              let product_list := product_list ++ more in
              match json_get some_prod "total", json_get some_prod "last_id" with
              | Ret total, Ret last_id =>
                  if eq_int total (Z.of_nat (length product_list))
                  then Some (Ret product_list, w)
                  else seller_product_pages http fuel last_id product_list
                         client_id seller_token w
              | Raise e, _ | _, Raise e => Some (Raise e, w)
              end
          | Raise e => Some (Raise e, w)
          end
      | (Raise e, w) => Some (Raise e, w)
      end
  end.

Definition seller_get_offer_ids {World} (http : Http World) (fuel : nat)
    (client_id seller_token : string) : Loop World (list json) := λ w,
  match seller_product_pages http fuel (JStr "") [] client_id seller_token w with
  | Some (Ret product_list, w) =>
      Some (collect (λ product, json_get product "offer_id") product_list, w)
  | Some (Raise e, w) => Some (Raise e, w)
  | None => None
  end.

(** ** market.py *)

Definition market_product_list_request (page : json) (campaign_id access_token : string)
    : Request :=
  let endpoint_url := "https://api.partner.market.yandex.ru/" in
  {| verb := GET;
     url := String.append endpoint_url
              (String.append "campaigns/"
                 (String.append campaign_id "/offer-mapping-entries"));
     headers := [("Content-Type", "application/json");
                 ("Authorization", String.append "Bearer " access_token);
                 ("Accept", "application/json");
                 ("Host", "api.partner.market.yandex.ru")];
     payload := JDict [("page_token", page); ("limit", JInt 200)] |}.

Definition market_get_product_list {World} (http : Http World)
    (page : json) (campaign_id access_token : string) : SE World json :=
  response_object ← http (market_product_list_request page campaign_id access_token);
  lift (json_get response_object "result").

Fixpoint market_product_pages {World} (http : Http World) (fuel : nat)
    (page : json) (product_list : list json) (campaign_id market_token : string)
    : Loop World (list json) := λ w,
  match fuel with
  | O => None
  | S fuel =>
      match market_get_product_list http page campaign_id market_token w with
      | (Ret some_prod, w) =>
          match json_get some_prod "offerMappingEntries" ≫= iterate with
          | Ret more =>
              let product_list := product_list ++ more in
              match json_get some_prod "paging" ≫= λ paging, json_get paging "nextPageToken" with
              | Ret page =>
                  if truthy page
                  then market_product_pages http fuel page product_list
                         campaign_id market_token w
                  else Some (Ret product_list, w)
              | Raise e => Some (Raise e, w)
              end
          | Raise e => Some (Raise e, w)
          end
      | (Raise e, w) => Some (Raise e, w)
      end
  end.

Definition market_get_offer_ids {World} (http : Http World) (fuel : nat)
    (campaign_id market_token : string) : Loop World (list json) := λ w,
  match market_product_pages http fuel (JStr "") [] campaign_id market_token w with
  | Some (Ret product_list, w) =>
      Some (collect (λ product, json_get product "offer" ≫= λ offer, json_get offer "shopSku")
              product_list, w)
  | Some (Raise e, w) => Some (Raise e, w)
  | None => None
  end.

(** A server that answers its [n]-th request (counting from 0) with
    [script n]; the world is the list of the requests received. *)
Definition stream_http (script : nat → json) : Http (list Request) := λ r log,
  (Ret (script (length log)), log ++ [r]).

(** A response of the shape that [get_offer_ids] of [seller.py] reads *)
Definition seller_page (response : json) (items : list json) (total last_id : json) : Prop :=
  ∃ d, json_get response "result" = Ret (JDict d) ∧
       assoc "items" d = JList items ∧ assoc "total" d = total ∧
       assoc "last_id" d = last_id.

(** A response of the shape that [get_offer_ids] of [market.py] reads *)
Definition market_page (response : json) (entries : list json) (token : json) : Prop :=
  ∃ d p, json_get response "result" = Ret (JDict d) ∧
         assoc "offerMappingEntries" d = JList entries ∧
         assoc "paging" d = JDict p ∧ assoc "nextPageToken" p = token.

(** The products of the pages [n], ..., [n + k - 1] *)
Definition products (items : nat → list json) (n k : nat) : list json :=
  concat (items <$> seq n k).

(** A catalog of three products served in two pages, and a server that
    keeps answering with an empty page *)
Definition ozon_two_pages (n : nat) : json :=
  match n with
  | O => JDict [("result", JDict [("items", JList [JDict [("offer_id", JStr "A")];
                                                   JDict [("offer_id", JStr "B")]]);
                                  ("total", JInt 3); ("last_id", JStr "B")])]
  | _ => JDict [("result", JDict [("items", JList [JDict [("offer_id", JStr "C")]]);
                                  ("total", JInt 3); ("last_id", JStr "")])]
  end.

Definition ozon_empty_pages (n : nat) : json :=
  JDict [("result", JDict [("items", JList []); ("total", JInt 3); ("last_id", JStr "")])].

Definition market_two_pages (n : nat) : json :=
  match n with
  | O => JDict [("result",
           JDict [("offerMappingEntries",
                   JList [JDict [("offer", JDict [("shopSku", JStr "A")])];
                          JDict [("offer", JDict [("shopSku", JStr "B")])]]);
                  ("paging", JDict [("nextPageToken", JStr "p2")])])]
  | _ => JDict [("result",
           JDict [("offerMappingEntries",
                   JList [JDict [("offer", JDict [("shopSku", JStr "C")])]]);
                  ("paging", JDict [])])]
  end.

Definition market_endless_pages (n : nat) : json :=
  JDict [("result",
    JDict [("offerMappingEntries", JList [JDict [("offer", JDict [("shopSku", JStr "A")])]]);
           ("paging", JDict [("nextPageToken", JStr "again")])])].

(** * The examples of the docstrings *)

Example create_stocks_docstring :
  seller.create_stocks [ {[ "Код" := PStr "12345"; "Количество" := PStr "5" ]} ] ["12345"]
  = (Ret [ {| seller.offer_id := "12345"; seller.stock := 5 |} ], []).
Proof. vm_compute. reflexivity. Qed.

Example create_prices_docstring :
  seller.create_prices [ {[ "Код" := PStr "12345"; "Цена" := PStr "5'990.00 руб." ]} ]
    ["12345"]
  = (Ret [ {| seller.auto_action_enabled := "UNKNOWN"; seller.currency_code := "RUB";
              seller.price_offer_id := "12345"; seller.old_price := "0";
              seller.price := "5990" |} ], ["12345"]).
Proof. vm_compute. reflexivity. Qed.

(** The characters of a string, and the indentation check on small files *)
Example characters_examples :
  characters (list_ascii_of_string "Код") = ["К"; "о"; "д"] ∧
  characters (list_ascii_of_string "a1") = ["a"; "1"] ∧
  characters [] = [].
Proof. split_and!; vm_compute; reflexivity. Qed.

Example load_module_examples :
  load_module [(1, 0); (2, 4); (3, 4); (4, 0)]%nat = Ret tt ∧
  load_module [(1, 0); (2, 4); (3, 8); (4, 0)]%nat = Ret tt ∧
  load_module [(1, 0); (2, 5); (3, 4)]%nat = Raise IndentationError ∧
  load_module [(1, 0); (2, 4); (3, 8); (4, 6)]%nat = Raise IndentationError ∧
  load_module [(1, 0); (2, 5); (3, 5); (4, 0)]%nat = Ret tt.
Proof. split_and!; vm_compute; reflexivity. Qed.

Example divide_docstring_empty : seller.divide (A:=Z) [] 2 = Ret [].
Proof. reflexivity. Qed.

(** A quantity cell that the spreadsheet reader delivers as a number goes
    through the same policy. *)
Example stock_of_number_cells :
  seller.stock_of {[ "Количество" := PInt 1 ]} = Ret 0 ∧
  seller.stock_of {[ "Количество" := PInt 7 ]} = Ret 7 ∧
  seller.stock_of (∅ : gmap string pyval) = Raise TypeError.
Proof. split_and!; vm_compute; reflexivity. Qed.

Example int_examples :
  int (PStr " 12 ") = Ret 12 ∧ int (PStr "-1_000") = Ret (-1000) ∧
  int (PStr "") = Raise ValueError ∧ int (PStr ">5") = Raise ValueError ∧
  int (PStr "1.0") = Raise ValueError.
Proof. split_and!; vm_compute; reflexivity. Qed.

(** * Reasoning about the reconciliation loops *)

(** ** The monad and the list operations *)

Lemma for_each_app {S A B} (xs ys : list A) (body : A → B → SE S B) acc s :
  for_each (xs ++ ys) body acc s =
  match for_each xs body acc s with
  | (Ret acc', s') => for_each ys body acc' s'
  | (Raise e, s') => (Raise e, s')
  end.
Proof.
  revert acc s. induction xs as [|x xs IH]; intros acc s; simpl; [done|].
  unfold mbind, SE_bind. destruct (body x acc s) as [[acc'|e] s']; [apply IH|done].
Qed.

Lemma for_each_ext {S A B} (xs : list A) (body1 body2 : A → B → SE S B) acc s :
  (∀ x acc s, body1 x acc s = body2 x acc s) →
  for_each xs body1 acc s = for_each xs body2 acc s.
Proof.
  intros Hext. revert acc s. induction xs as [|x xs IH]; intros acc s; simpl; [done|].
  unfold mbind, SE_bind. rewrite Hext.
  destruct (body2 x acc s) as [[acc'|e] s']; [apply IH|done].
Qed.

(** A loop whose body only appends leaves the state alone. *)
Lemma for_each_append {S A B} (f : A → B) (xs : list A) (acc : list B) (s : S) :
  for_each xs (λ x acc, mret (acc ++ [f x])) acc s = (Ret (acc ++ (f <$> xs)), s).
Proof.
  revert acc. induction xs as [|x xs IH]; intros acc; simpl.
  - by rewrite app_nil_r.
  - unfold mbind, SE_bind, mret, SE_ret. rewrite IH. by rewrite <- app_assoc.
Qed.

Lemma list_in_true x l : list_in x l = true ↔ x ∈ l.
Proof. unfold list_in. by rewrite bool_decide_eq_true. Qed.

Lemma list_in_false x l : list_in x l = false ↔ x ∉ l.
Proof. unfold list_in. by rewrite bool_decide_eq_false. Qed.

Lemma remove_first_elem x l : x ∈ l → is_Some (remove_first x l).
Proof.
  induction l as [|y l IH]; intros Hin; [by apply elem_of_nil in Hin|].
  simpl. case_bool_decide; [by eexists|].
  apply elem_of_cons in Hin as [->|Hin]; [done|].
  destruct (IH Hin) as [l' ->]. by eexists.
Qed.

Lemma remove_first_perm x l l' : remove_first x l = Some l' → l ≡ₚ x :: l'.
Proof.
  revert l'. induction l as [|y l IH]; intros l' H; simpl in H; [done|].
  case_bool_decide; simplify_eq; [done|].
  destruct (remove_first x l) as [l1|] eqn:E; simplify_eq/=.
  rewrite (IH l1 eq_refl). apply Permutation_swap.
Qed.

Lemma filter_all {A} (P : A → Prop) `{∀ x, Decision (P x)} (l : list A) :
  Forall P l → filter P l = l.
Proof.
  induction 1 as [|x l Hx _ IH]; [done|].
  rewrite filter_cons_True by done. by rewrite IH.
Qed.

Lemma filter_none {A} (P : A → Prop) `{∀ x, Decision (P x)} (l : list A) :
  Forall (λ x, ¬ P x) l → filter P l = [].
Proof.
  induction 1 as [|x l Hx _ IH]; [done|].
  by rewrite filter_cons_False.
Qed.

Lemma remove_first_NoDup x l l' :
  NoDup l → remove_first x l = Some l' →
  NoDup l' ∧ (x ∉ l') ∧ l' = filter (λ y, y ≠ x) l.
Proof.
  intros Hnd H. pose proof (remove_first_perm _ _ _ H) as Hp.
  rewrite Hp in Hnd. apply NoDup_cons in Hnd as [Hx Hnd]. split_and!; [done..|].
  clear Hp. revert l' H Hx Hnd. induction l as [|y l IH]; intros l' H Hx Hnd; [done|].
  simpl in H. rewrite filter_cons. case_bool_decide; simplify_eq.
  - rewrite decide_False by (intros ?; done).
    symmetry. apply filter_all. apply Forall_forall. intros y Hy ->. done.
  - destruct (remove_first x l) as [l1|] eqn:E; simplify_eq/=.
    rewrite decide_True by done. f_equal.
    apply NoDup_cons in Hnd as [_ Hnd]. apply IH; [done| |done].
    intros ?. apply Hx. by right.
Qed.

Lemma remove_first_perm_proper x l1 l2 l1' :
  l1 ≡ₚ l2 → remove_first x l1 = Some l1' →
  ∃ l2', remove_first x l2 = Some l2' ∧ l1' ≡ₚ l2'.
Proof.
  intros Hp H. pose proof (remove_first_perm _ _ _ H) as H1.
  assert (x ∈ l2) as Hin by (rewrite <- Hp, H1; left).
  destruct (remove_first_elem _ _ Hin) as [l2' H2]. exists l2'. split; [done|].
  apply remove_first_perm in H2. apply (Permutation_cons_inv (a:=x)).
  by rewrite <- H1, <- H2.
Qed.

(** ** The stock loop, in direct style *)

Section stock_loop.
Context {E : Type} (mk : string → Z → E).

Lemma gen_loop_matched_pass ws acc st :
  for_each ws (gen_stocks_body mk) acc st =
  match matched_pass ws st with
  | (Ret m, st') => (Ret (acc ++ (uncurry mk <$> m)), st')
  | (Raise e, st') => (Raise e, st')
  end.
Proof.
  revert acc st. induction ws as [|w ws IH]; intros acc st; simpl.
  { by rewrite app_nil_r. }
  unfold mbind at 1, SE_bind at 1. unfold gen_stocks_body at 1.
  unfold mbind, SE_bind, get_state, lift, list_remove, mret, SE_ret. fold (code w).
  destruct (list_in (code w) st) eqn:Hin.
  - destruct (seller.stock_of w) as [q|e]; [|done].
    destruct (remove_first (code w) st) as [st1|]; [|done].
    specialize (IH (acc ++ [mk (code w) q]) st1).
    unfold mbind, SE_bind in IH. rewrite IH.
    destruct (matched_pass ws st1) as [[m|e] st2]; [|done].
    by rewrite <- app_assoc.
  - apply IH.
Qed.

Lemma gen_create_stocks_matched_pass ws st :
  gen_create_stocks mk ws st =
  match matched_pass ws st with
  | (Ret m, st') => (Ret (uncurry mk <$> (m ++ ((λ i, (i, 0)) <$> st'))), st')
  | (Raise e, st') => (Raise e, st')
  end.
Proof.
  unfold gen_create_stocks. unfold mbind at 1, SE_bind at 1.
  rewrite gen_loop_matched_pass.
  destruct (matched_pass ws st) as [[m|e] st']; [|done].
  unfold mbind, SE_bind, get_state.
  rewrite (for_each_append (λ i, mk i 0)). simpl.
  by rewrite fmap_app, <- list_fmap_compose.
Qed.
End stock_loop.

Lemma seller_create_stocks_reconcile ws st :
  seller.create_stocks ws st = map_outcome seller_entry (reconcile ws st).
Proof.
  change (seller.create_stocks ws) with
    (gen_create_stocks (λ i q, {| seller.offer_id := i; seller.stock := q |}) ws).
  rewrite gen_create_stocks_matched_pass. unfold reconcile, map_outcome.
  destruct (matched_pass ws st) as [[m|e] st']; [|done].
  f_equal. f_equal. apply list_fmap_ext. by intros ? [] ?.
Qed.

Lemma market_create_stocks_reconcile ws wh date st :
  market.create_stocks ws wh date st = map_outcome (market_entry wh date) (reconcile ws st).
Proof.
  change (market.create_stocks ws wh date) with
    (gen_create_stocks (λ i q, {| market.sku := i; market.warehouseId := wh;
       market.items := [{| market.count := q; market.type := "FIT";
                           market.updatedAt := date |}] |}) ws).
  rewrite gen_create_stocks_matched_pass. unfold reconcile, map_outcome.
  destruct (matched_pass ws st) as [[m|e] st']; [|done].
  f_equal. f_equal. apply list_fmap_ext. by intros ? [] ?.
Qed.

Lemma filter_ext_elem {A} (P Q : A → Prop)
    `{!∀ x, Decision (P x), !∀ x, Decision (Q x)} (l : list A) :
  (∀ x, x ∈ l → P x ↔ Q x) → filter P l = filter Q l.
Proof.
  induction l as [|a l IH]; intros Hext; [done|].
  rewrite !filter_cons. rewrite IH by (intros x Hx; apply Hext; by right).
  apply decide_ext, Hext. by left.
Qed.

Lemma first_record_cons w ws i :
  first_record (w :: ws) i = if decide (code w = i) then Some w else first_record ws i.
Proof. unfold first_record. rewrite filter_cons. by case_decide. Qed.

Lemma first_record_None ws i : first_record ws i = None ↔ i ∉ code <$> ws.
Proof.
  induction ws as [|w ws IH]; [split; [intros _; apply not_elem_of_nil|done]|].
  rewrite first_record_cons, fmap_cons, not_elem_of_cons.
  case_decide; [split; [done|intros [? _]; congruence]|].
  rewrite IH. split; [by split|tauto].
Qed.

Lemma first_record_Some ws i w : first_record ws i = Some w → w ∈ ws ∧ code w = i.
Proof.
  unfold first_record. intros H. apply head_Some_elem_of in H.
  by apply list_elem_of_filter in H as [? ?].
Qed.

(** Identifiers are neither lost nor invented by the first loop. *)
Lemma matched_pass_perm ws st m st' :
  matched_pass ws st = (Ret m, st') → m.*1 ++ st' ≡ₚ st.
Proof.
  revert st m st'. induction ws as [|w ws IH]; intros st m st' H; simpl in H.
  { by simplify_eq. }
  destruct (list_in (code w) st); [|by apply IH].
  destruct (seller.stock_of w) as [q|]; [|done].
  destruct (remove_first (code w) st) as [st1|] eqn:Hrm; [|done].
  destruct (matched_pass ws st1) as [[m1|] st2] eqn:Hrec; simplify_eq.
  apply remove_first_perm in Hrm. rewrite Hrm. simpl. f_equiv. by apply IH.
Qed.

(** On a duplicate-free list, the first loop matches the first record of
    each code and leaves the identifiers that no record carries. *)
Lemma matched_pass_NoDup ws st m st' :
  NoDup st → matched_pass ws st = (Ret m, st') →
  NoDup st' ∧ st' = filter (λ i, i ∉ code <$> ws) st ∧
  ∀ i q, (i, q) ∈ m →
    i ∈ st ∧ ∃ w, first_record ws i = Some w ∧ seller.stock_of w = Ret q.
Proof.
  revert st m st'. induction ws as [|w ws IH]; intros st m st' Hnd H; simpl in H.
  { simplify_eq. split_and!; [done| |by intros ?? ?%elem_of_nil].
    symmetry. apply filter_all, Forall_forall. intros ? _. apply not_elem_of_nil. }
  destruct (list_in (code w) st) eqn:Hin.
  - apply list_in_true in Hin.
    destruct (seller.stock_of w) as [q|] eqn:Hq; [|done].
    destruct (remove_first (code w) st) as [st1|] eqn:Hrm; [|done].
    destruct (matched_pass ws st1) as [[m1|] st2] eqn:Hrec; simplify_eq.
    destruct (remove_first_NoDup _ _ _ Hnd Hrm) as (Hnd1 & Hnot & ->).
    destruct (IH _ _ _ Hnd1 Hrec) as (Hnd2 & Hst2 & Hm). split_and!; [done|..].
    + rewrite Hst2, list_filter_filter. apply list_filter_iff. intros i.
      rewrite fmap_cons, not_elem_of_cons. tauto.
    + intros i q' [?|Hi]%elem_of_cons; simplify_eq.
      * split; [done|]. exists w. by rewrite first_record_cons, decide_True.
      * destruct (Hm _ _ Hi) as (Hi1 & w' & Hw' & Hq').
        apply list_elem_of_filter in Hi1 as [Hne Hi1]. split; [done|].
        exists w'. by rewrite first_record_cons, decide_False.
  - apply list_in_false in Hin.
    destruct (IH _ _ _ Hnd H) as (Hnd2 & Hst2 & Hm). split_and!; [done|..].
    + rewrite Hst2. apply filter_ext_elem. intros i Hi.
      rewrite fmap_cons, not_elem_of_cons. split; [|tauto].
      intros Hn. split; [|done]. intros Heq. apply Hin. by rewrite <- Heq.
    + intros i q Hi. destruct (Hm _ _ Hi) as (Hi1 & w' & Hw' & Hq').
      split; [done|]. exists w'. rewrite first_record_cons, decide_False; [done|].
      intros Heq. apply Hin. by rewrite Heq.
Qed.

(** The first loop only raises what [stock_of] raises on a matched record. *)
Lemma matched_pass_Raise ws st e st' :
  NoDup st → matched_pass ws st = (Raise e, st') →
  ∃ w, first_record ws (code w) = Some w ∧ code w ∈ st ∧ seller.stock_of w = Raise e.
Proof.
  revert st. induction ws as [|w ws IH]; intros st Hnd H; simpl in H; [done|].
  destruct (list_in (code w) st) eqn:Hin.
  - apply list_in_true in Hin.
    destruct (seller.stock_of w) as [q|e'] eqn:Hq.
    + destruct (remove_first_elem _ _ Hin) as [st1 Hrm]. rewrite Hrm in H.
      destruct (matched_pass ws st1) as [[m1|e'] st2] eqn:Hrec; simplify_eq.
      destruct (remove_first_NoDup _ _ _ Hnd Hrm) as (Hnd1 & Hnot & ->).
      destruct (IH _ Hnd1 Hrec) as (w' & Hw' & Hin' & He). exists w'.
      apply list_elem_of_filter in Hin' as [Hne Hin'].
      by rewrite first_record_cons, decide_False.
    + simplify_eq. exists w. by rewrite first_record_cons, decide_True.
  - apply list_in_false in Hin.
    destruct (IH _ Hnd H) as (w' & Hw' & Hin' & He). exists w'.
    rewrite first_record_cons, decide_False; [done|].
    intros Heq. apply Hin. by rewrite Heq.
Qed.

(** The first loop does not depend on the order of the identifiers. *)
Lemma matched_pass_proper ws st1 st2 :
  st1 ≡ₚ st2 →
  match matched_pass ws st1, matched_pass ws st2 with
  | (Ret m1, st1'), (Ret m2, st2') => m1 = m2 ∧ st1' ≡ₚ st2'
  | (Raise e1, _), (Raise e2, _) => e1 = e2
  | _, _ => False
  end.
Proof.
  revert st1 st2. induction ws as [|w ws IH]; intros st1 st2 Hp; simpl; [done|].
  assert (list_in (code w) st1 = list_in (code w) st2) as ->.
  { unfold list_in. apply bool_decide_ext. by rewrite Hp. }
  destruct (list_in (code w) st2) eqn:Hin; [|by apply IH].
  destruct (seller.stock_of w) as [q|e]; [|done].
  apply list_in_true in Hin.
  assert (code w ∈ st1) as Hin1 by by rewrite Hp.
  destruct (remove_first_elem _ _ Hin1) as [st1' Hrm1]. rewrite Hrm1.
  destruct (remove_first_perm_proper _ _ _ _ Hp Hrm1) as (st2' & -> & Hp').
  specialize (IH _ _ Hp').
  destruct (matched_pass ws st1') as [[m1|e1] s1], (matched_pass ws st2') as [[m2|e2] s2];
    try done.
  destruct IH as [-> ?]. done.
Qed.

(** * Stock reconciliation *)

Lemma reconcile_exactly_once ws offers pairs rest :
  NoDup offers → reconcile ws offers = (Ret pairs, rest) → exactly_once ws offers pairs.
Proof.
  unfold reconcile. intros Hnd H.
  destruct (matched_pass ws offers) as [[m|e] st'] eqn:Hm; simplify_eq.
  pose proof (matched_pass_perm _ _ _ _ Hm) as Hp.
  destruct (matched_pass_NoDup _ _ _ _ Hnd Hm) as (_ & Hst & Hq).
  split.
  - rewrite fmap_app, <- list_fmap_compose. simpl. by rewrite list_fmap_id.
  - intros i q [Hi|Hi]%elem_of_app.
    + destruct (Hq _ _ Hi) as (_ & w & -> & Hw). done.
    + apply list_elem_of_fmap in Hi as (j & [= -> ->] & Hj).
      rewrite Hst in Hj. apply list_elem_of_filter in Hj as [Hj _].
      apply first_record_None in Hj. by rewrite Hj.
Qed.

Lemma reconcile_returns ws offers :
  NoDup offers →
  (∀ w, w ∈ ws → code w ∈ offers → returns (seller.stock_of w)) →
  returns (reconcile ws offers).1.
Proof.
  unfold reconcile. intros Hnd Hok.
  destruct (matched_pass ws offers) as [[m|e] st'] eqn:Hm; [by eexists|].
  destruct (matched_pass_Raise _ _ _ _ Hnd Hm) as (w & Hw & Hin & He).
  apply first_record_Some in Hw as [Hw _].
  destruct (Hok w Hw Hin) as [q Hq]. congruence.
Qed.

(** C1.  On a duplicate-free list of known identifiers, the list that
    [create_stocks] returns has exactly one entry per known identifier and no
    other entry; an identifier that an inventory record carries has the
    quantity derived from the first such record, and every other identifier
    has quantity 0.  This holds for the Ozon and for the Yandex Market
    variant, and both return whenever [stock_of] returns on every record
    whose code is known. *)
Theorem create_stocks_exactly_once (ws : list (gmap string pyval)) (offers : list string) :
  NoDup offers →
  (∀ stocks rest, seller.create_stocks ws offers = (Ret stocks, rest) →
     exactly_once ws offers (seller_pair <$> stocks)) ∧
  (∀ wh date stocks rest, market.create_stocks ws wh date offers = (Ret stocks, rest) →
     ∃ pairs, stocks = market_entry wh date <$> pairs ∧ exactly_once ws offers pairs) ∧
  ((∀ w, w ∈ ws → code w ∈ offers → returns (seller.stock_of w)) →
     returns (seller.create_stocks ws offers).1 ∧
     ∀ wh date, returns (market.create_stocks ws wh date offers).1).
Proof.
  intros Hnd. split_and!.
  - intros stocks rest. rewrite seller_create_stocks_reconcile. unfold map_outcome.
    destruct (reconcile ws offers) as [[pairs|e] st'] eqn:Hr; intros [= <- <-].
    rewrite <- list_fmap_compose.
    rewrite (list_fmap_ext _ id pairs) by (by intros ? [] ?).
    rewrite list_fmap_id. by eapply reconcile_exactly_once.
  - intros wh date stocks rest. rewrite market_create_stocks_reconcile. unfold map_outcome.
    destruct (reconcile ws offers) as [[pairs|e] st'] eqn:Hr; intros [= <- <-].
    exists pairs. split; [done|]. by eapply reconcile_exactly_once.
  - intros Hok. destruct (reconcile_returns ws offers Hnd Hok) as [pairs Hp].
    split; [|intros wh date].
    + rewrite seller_create_stocks_reconcile. unfold map_outcome.
      destruct (reconcile ws offers) as [[?|?] ?]; simplify_eq/=. by eexists.
    + rewrite market_create_stocks_reconcile. unfold map_outcome.
      destruct (reconcile ws offers) as [[?|?] ?]; simplify_eq/=. by eexists.
Qed.

Lemma create_stocks_exactly_once_witness :
  exactly_once [scenario_record] scenario_offers [("A", 100); ("B", 0); ("C", 0)].
Proof.
  assert (NoDup scenario_offers) as Hnd.
  { apply (bool_decide_unpack _). vm_compute. exact I. }
  refine (proj1 (create_stocks_exactly_once [scenario_record] scenario_offers Hnd)
            [ {| seller.offer_id := "A"; seller.stock := 100 |};
              {| seller.offer_id := "B"; seller.stock := 0 |};
              {| seller.offer_id := "C"; seller.stock := 0 |} ] ["B"; "C"] _).
  vm_compute. reflexivity.
Defined.

(** ** Quantity policy *)




(** ** [int] and the literals of the language reference *)

Lemma is_0_9_not_space c : is_0_9 c = true → is_space c = false.
Proof.
  unfold is_0_9, is_space. intros [H1 H2]%andb_true_iff.
  apply N.leb_le in H1, H2. apply orb_false_iff. split.
  - apply andb_false_iff. right. apply N.leb_gt. lia.
  - apply N.eqb_neq. lia.
Qed.

Lemma lstrip_not_space c l : is_space c = false → lstrip (c :: l) = c :: l.
Proof. intros H. simpl. by rewrite H. Qed.

Lemma white_space_spec c : white_space c ↔ is_space c = true.
Proof.
  unfold white_space, is_space. cbn zeta. rewrite !elem_of_cons, elem_of_nil.
  rewrite orb_true_iff, andb_true_iff, !N.leb_le, N.eqb_eq. lia.
Qed.

Lemma digit_spec c d : digit c d ↔ is_0_9 c = true ∧ d = digit_value c.
Proof.
  unfold digit. split.
  - rewrite !elem_of_cons, elem_of_nil. intros H.
    repeat (destruct H as [H|H]; [by simplify_eq|]). done.
  - intros [Hc ->].
    destruct c as [[] [] [] [] [] [] [] []]; try discriminate Hc;
      apply (bool_decide_unpack _); vm_compute; exact I.
Qed.

Lemma Forall_white_space l : Forall white_space l ↔ Forall (λ c, is_space c = true) l.
Proof. apply Forall_proper; [|done]. intros c. apply white_space_spec. Qed.

Lemma int_digits_decimal l :
  ∀ p acc z, decimal_digits p acc →
    (int_digits l acc true = Some z → decimal_digits (p ++ l) z) ∧
    (int_digits l acc false = Some z → decimal_digits (p ++ "_"%char :: l) z).
Proof.
  induction l as [|c l IH]; intros p acc z Hp; cbn [int_digits].
  { split; [|done]. intros [= <-]. by rewrite app_nil_r. }
  destruct (is_0_9 c) eqn:Hc.
  - assert (digit c (digit_value c)) as Hd by by apply digit_spec.
    split; intros H.
    + replace (p ++ c :: l) with ((p ++ [c]) ++ l) by by rewrite <- app_assoc.
      apply (IH (p ++ [c]) (10 * acc + digit_value c) z); [by constructor|done].
    + replace (p ++ "_"%char :: c :: l) with ((p ++ ["_"%char; c]) ++ l)
        by by rewrite <- app_assoc.
      apply (IH (p ++ ["_"%char; c]) (10 * acc + digit_value c) z); [by constructor|done].
  - case_bool_decide as Hu; [|done]. subst c. split; [|done].
    intros H. by apply (IH p acc z).
Qed.

Lemma int_digits_sound l z : int_digits l 0 false = Some z → decimal_digits l z.
Proof.
  destruct l as [|c l]; [done|]. cbn [int_digits].
  destruct (is_0_9 c) eqn:Hc; [|by case_bool_decide].
  intros H. apply (int_digits_decimal l [c] (10 * 0 + digit_value c) z); [|done].
  rewrite Z.mul_0_r, Z.add_0_l. constructor. by apply digit_spec.
Qed.

Lemma int_digits_snoc l :
  ∀ acc b v c, int_digits l acc b = Some v → is_0_9 c = true →
    int_digits (l ++ [c]) acc b = Some (10 * v + digit_value c) ∧
    int_digits (l ++ ["_"%char; c]) acc b = Some (10 * v + digit_value c).
Proof.
  induction l as [|d l IH]; intros acc b v c H Hc; cbn [int_digits app] in *.
  - destruct b; [|done]. simplify_eq. split.
    + by rewrite Hc.
    + change (is_0_9 "_"%char) with false. cbn iota.
      rewrite bool_decide_eq_true_2 by done. cbn [int_digits]. by rewrite Hc.
  - destruct (is_0_9 d); [by apply IH|].
    case_bool_decide; [|done]. destruct b; [|done]. by apply IH.
Qed.

Lemma int_digits_complete l z : decimal_digits l z → int_digits l 0 false = Some z.
Proof.
  induction 1 as [c d Hc|l v c d _ IH Hc|l v c d _ IH Hc];
    apply digit_spec in Hc as [Hc ->].
  - cbn [int_digits]. rewrite Hc. cbn [int_digits]. f_equal; lia.
  - by apply int_digits_snoc.
  - by apply int_digits_snoc.
Qed.

Lemma decimal_digits_ends l v :
  decimal_digits l v →
  ∃ c l' c', is_0_9 c = true ∧ is_0_9 c' = true ∧
    (l = [c] ∧ c' = c ∨ l = c :: l' ++ [c']).
Proof.
  induction 1 as [c d Hc|l v c d _ IH Hc|l v c d _ IH Hc];
    apply digit_spec in Hc as [Hc ->].
  - exists c, [], c. split_and!; [done..|by left].
  - destruct IH as (c0 & l' & c' & H0 & _ & Hl). destruct Hl as [[-> ->] | ->].
    + exists c0, [], c. split_and!; [done..|by right].
    + exists c0, (l' ++ [c']), c. split_and!; [done..|]. by right.
  - destruct IH as (c0 & l' & c' & H0 & _ & Hl). destruct Hl as [[-> ->] | ->].
    + exists c0, ["_"%char], c. split_and!; [done..|by right].
    + exists c0, (l' ++ [c'; "_"%char]), c. split_and!; [done..|]. right.
      cbn [app]. f_equal. by rewrite <- !app_assoc.
Qed.

Lemma lstrip_spaces pre l : Forall (λ c, is_space c = true) pre → lstrip (pre ++ l) = lstrip l.
Proof. induction 1 as [|c pre Hc _ IH]; [done|]. simpl. by rewrite Hc. Qed.

Lemma lstrip_split l :
  ∃ pre, l = pre ++ lstrip l ∧ Forall (λ c, is_space c = true) pre.
Proof.
  induction l as [|c l (pre & Hl & Hpre)]; [by exists []|].
  simpl. destruct (is_space c) eqn:Hc.
  - exists (c :: pre). split; [by rewrite Hl at 1|by constructor].
  - by exists [].
Qed.

Lemma strip_split l :
  ∃ pre post, l = pre ++ strip l ++ post ∧
    Forall (λ c, is_space c = true) pre ∧ Forall (λ c, is_space c = true) post.
Proof.
  destruct (lstrip_split l) as (pre & Hl & Hpre).
  destruct (lstrip_split (reverse (lstrip l))) as (post & Hr & Hpost).
  exists pre, (reverse post). split_and!; [|done|by apply Forall_reverse].
  unfold strip. rewrite <- reverse_app, <- Hr, reverse_involutive. done.
Qed.

Lemma strip_body pre body post :
  Forall (λ c, is_space c = true) pre → Forall (λ c, is_space c = true) post →
  (∃ c l, body = c :: l ∧ is_space c = false) →
  (∃ l c, body = l ++ [c] ∧ is_space c = false) →
  strip (pre ++ body ++ post) = body.
Proof.
  intros Hpre Hpost (c & l & Hb & Hc) (l' & c' & Hb' & Hc').
  unfold strip. rewrite lstrip_spaces by done.
  assert (lstrip (body ++ post) = body ++ post) as ->.
  { rewrite Hb. by apply (lstrip_not_space c (l ++ post)). }
  rewrite reverse_app, lstrip_spaces by by apply Forall_reverse.
  assert (lstrip (reverse body) = reverse body) as ->.
  { rewrite Hb', reverse_app. by apply (lstrip_not_space c' (reverse l')). }
  apply reverse_involutive.
Qed.

Lemma signed_digits_strip pre body post z :
  Forall (λ c, is_space c = true) pre → Forall (λ c, is_space c = true) post →
  signed_digits body z → strip (pre ++ body ++ post) = body.
Proof.
  intros Hpre Hpost Hs. apply strip_body; [done..| |].
  - destruct Hs as [l v Hd|l v Hd|l v Hd].
    + destruct (decimal_digits_ends _ _ Hd) as (c & l' & c' & Hc & _ & [[-> _] | ->]);
        eexists _, _; (split; [done|by apply is_0_9_not_space]).
    + by eexists _, _.
    + by eexists _, _.
  - assert (∀ l v, decimal_digits l v → ∃ l' c, l = l' ++ [c] ∧ is_space c = false) as Hend.
    { intros l v Hd.
      destruct (decimal_digits_ends _ _ Hd) as (c & l' & c' & Hc & Hc' & [[-> ->] | ->]).
      - exists [], c. split; [done|by apply is_0_9_not_space].
      - exists (c :: l'), c'. split; [done|by apply is_0_9_not_space]. }
    destruct Hs as [l v Hd|l v Hd|l v Hd]; destruct (Hend _ _ Hd) as (l' & c & -> & Hc).
    + by exists l', c.
    + by exists ("+"%char :: l'), c.
    + by exists ("-"%char :: l'), c.
Qed.

(** [int] on a string and the literals of the language reference agree. *)
Lemma int_literal_denotes s z : int_literal s = Some z ↔ denotes s z.
Proof.
  unfold int_literal, denotes. split.
  - intros H. destruct (strip_split (list_ascii_of_string s)) as (pre & post & Hl & Hpre & Hpost).
    exists pre, (strip (list_ascii_of_string s)), post.
    split_and!; [done|by apply Forall_white_space..|].
    destruct (strip (list_ascii_of_string s)) as [|c l]; [done|].
    case_bool_decide as Hm; [subst c|case_bool_decide as Hp; [subst c|]].
    + destruct (int_digits l 0 false) as [v|] eqn:Hv; simplify_eq/=.
      apply signed_minus. by apply int_digits_sound.
    + apply signed_plus. by apply int_digits_sound.
    + apply signed_none. by apply int_digits_sound.
  - intros (pre & body & post & -> & Hpre%Forall_white_space & Hpost%Forall_white_space & Hs).
    rewrite (signed_digits_strip pre body post z Hpre Hpost Hs).
    destruct Hs as [l v Hd|l v Hd|l v Hd].
    + destruct (decimal_digits_ends _ _ Hd) as (c & l' & c' & Hc & _ & Hl).
      assert (∃ l0, l = c :: l0) as [l0 ->] by (destruct Hl as [[-> _] | ->]; by eexists).
      rewrite !bool_decide_eq_false_2 by (intros ->; done).
      by apply int_digits_complete.
    + rewrite bool_decide_eq_false_2 by done. rewrite bool_decide_eq_true_2 by done.
      by apply int_digits_complete.
    + rewrite bool_decide_eq_true_2 by done.
      by rewrite (int_digits_complete _ _ Hd).
Qed.

(** Literals and strings that are none *)
Example denotes_examples :
  denotes "7" 7 ∧ denotes " +1_000 " 1000 ∧ denotes "-012" (-12) ∧
  (∀ z, ¬ denotes "" z) ∧ (∀ z, ¬ denotes "7.0" z) ∧ (∀ z, ¬ denotes "- 7" z) ∧
  (∀ z, ¬ denotes "1__0" z) ∧ (∀ z, ¬ denotes "seven" z).
Proof.
  split_and!; try (apply int_literal_denotes; vm_compute; reflexivity);
    intros z Hz%int_literal_denotes; vm_compute in Hz; discriminate Hz.
Qed.



(** ** Independence of the order of the identifiers *)

Lemma reconcile_proper ws st1 st2 :
  st1 ≡ₚ st2 → same_up_to_order (reconcile ws st1).1 (reconcile ws st2).1.
Proof.
  intros Hp. pose proof (matched_pass_proper ws _ _ Hp) as H. unfold reconcile.
  destruct (matched_pass ws st1) as [[m1|e1] s1], (matched_pass ws st2) as [[m2|e2] s2];
    try done.
  destruct H as [-> Hs]. simpl. by rewrite Hs.
Qed.

(** C5, as amended.  Reconciling the same inventory against the same
    identifiers, listed in any order, gives the same stock updates up to
    order in the Ozon variant; in the Yandex Market variant it does so when
    both calls read the same time stamp, and otherwise the two lists agree up
    to order once the time stamps are set equal. *)
Theorem create_stocks_order_independent (ws : list (gmap string pyval))
    (offers offers' : list string) :
  offers ≡ₚ offers' →
  same_up_to_order (seller.create_stocks ws offers).1 (seller.create_stocks ws offers').1 ∧
  (∀ wh date,
     same_up_to_order (market.create_stocks ws wh date offers).1
                      (market.create_stocks ws wh date offers').1) ∧
  (∀ wh date date',
     same_up_to_order (restamp_all date' (market.create_stocks ws wh date offers).1)
                      (market.create_stocks ws wh date' offers').1).
Proof.
  intros Hp. pose proof (reconcile_proper ws _ _ Hp) as H.
  rewrite !seller_create_stocks_reconcile.
  setoid_rewrite market_create_stocks_reconcile.
  unfold map_outcome, same_up_to_order, restamp_all in *.
  destruct (reconcile ws offers) as [[p1|e1] s1], (reconcile ws offers') as [[p2|e2] s2];
    simpl in *; try done.
  split_and!; intros; rewrite ?H; try done.
  rewrite <- list_fmap_compose.
  by rewrite (list_fmap_ext _ (market_entry wh date') p2) by (by intros ? [] ?).
Qed.

Lemma create_stocks_order_independent_witness :
  same_up_to_order (seller.create_stocks [scenario_record] ["A"; "B"; "C"]).1
                   (seller.create_stocks [scenario_record] ["C"; "A"; "B"]).1.
Proof.
  refine (proj1 (create_stocks_order_independent [scenario_record]
                   ["A"; "B"; "C"] ["C"; "A"; "B"] _)).
  change ["C"; "A"; "B"] with (["C"] ++ ["A"; "B"]).
  change ["A"; "B"; "C"] with (["A"; "B"] ++ ["C"]).
  apply Permutation_app_comm.
Defined.

(** C5 as stated fails in the Yandex Market variant: the same inventory and
    the same identifiers, reconciled at two different seconds. *)
Lemma create_stocks_idempotence_counterexample :
  ¬ same_up_to_order
      (market.create_stocks [] "1" "2024-01-01T00:00:00Z" ["A"]).1
      (market.create_stocks [] "1" "2024-01-01T00:00:01Z" ["A"]).1.
Proof.
  vm_compute. intros H. apply Permutation_singleton_l in H. discriminate H.
Qed.

(** * Price parsing *)

Lemma split_not_nil s sep : split s sep ≠ [].
Proof.
  destruct s as [|c s]; simpl; [done|].
  case_bool_decide; [done|]. by destruct (split s sep).
Qed.

Lemma hd_split_point s :
  hd EmptyString (split s ".") =
  string_of_list_ascii (before_first_point (list_ascii_of_string s)).
Proof.
  induction s as [|c s IH]; simpl; [done|].
  case_bool_decide; [done|].
  pose proof (split_not_nil s ".") as Hne.
  destruct (split s ".") as [|p ps]; [done|]. simpl in *. by rewrite IH.
Qed.

Lemma re_sub_not_0_9_filter l :
  re_sub_not_0_9 (string_of_list_ascii l) =
  string_of_list_ascii (filter (λ c, is_0_9 c = true) l).
Proof.
  induction l as [|c l IH]; simpl; [done|].
  rewrite filter_cons. destruct (is_0_9 c) eqn:Hc.
  - rewrite decide_True by done. simpl. by rewrite IH.
  - rewrite decide_False by done. done.
Qed.

Lemma price_conversion_digits s :
  seller.price_conversion s = digits_before_first_point s.
Proof.
  unfold seller.price_conversion, digits_before_first_point.
  by rewrite hd_split_point, re_sub_not_0_9_filter.
Qed.

Lemma price_conversion_empty s :
  seller.price_conversion s = EmptyString ↔ no_digit_before_first_point s.
Proof.
  rewrite price_conversion_digits.
  unfold digits_before_first_point, no_digit_before_first_point.
  induction (before_first_point (list_ascii_of_string s)) as [|c l IH]; [done|].
  rewrite filter_cons, Forall_cons. destruct (is_0_9 c) eqn:Hc.
  - rewrite decide_True by done. simpl. split; [done|]. by intros [? _].
  - rewrite decide_False by done. rewrite IH. split; [done|]. by intros [_ ?].
Qed.

(** C3.  [price_conversion] returns the text before the first decimal point
    with every character that is not an ASCII digit deleted; it is a total
    function, so it never raises, and an input with no digit before its
    first decimal point gives the empty string. *)
Theorem price_conversion_spec :
  (∀ s, seller.price_conversion s = digits_before_first_point s) ∧
  seller.price_conversion "5'990.00 руб." = "5990" ∧
  seller.price_conversion "1000 руб." = "1000" ∧
  seller.price_conversion "12.99" = "12" ∧
  (∀ s, no_digit_before_first_point s → seller.price_conversion s = EmptyString).
Proof.
  split_and!; [apply price_conversion_digits|done..|].
  intros s. apply price_conversion_empty.
Qed.

Lemma price_conversion_spec_witness : seller.price_conversion "руб. 5.00" = EmptyString.
Proof.
  apply (proj2 (proj2 (proj2 (proj2 price_conversion_spec)))).
  apply (bool_decide_unpack _). vm_compute. exact I.
Defined.

(** * Batching *)

Lemma range_length_bounds (len n : Z) :
  0 < n → 0 ≤ len →
  0 ≤ range_length 0 len n ∧ len ≤ range_length 0 len n * n ∧
  (range_length 0 len n - 1) * n < len.
Proof.
  intros Hn Hlen. unfold range_length.
  destruct (Z.ltb_spec 0 n); [|lia].
  destruct (Z.ltb_spec 0 len); [|lia].
  rewrite Z.sub_0_r.
  pose proof (Z.div_mod (len - 1) n ltac:(lia)).
  pose proof (Z.mod_pos_bound (len - 1) n Hn).
  assert (0 ≤ (len - 1) / n) by (apply Z.div_pos; lia).
  nia.
Qed.

Lemma slice_chunk {A} (lst : list A) (k : nat) (n : Z) :
  0 < n → Z.of_nat k * n < Z.of_nat (length lst) →
  slice lst (0 + Z.of_nat k * n) (0 + Z.of_nat k * n + n) =
  take (Z.to_nat n) (drop (k * Z.to_nat n) lst).
Proof.
  intros Hn Hk. unfold slice, slice_bound.
  destruct (Z.ltb_spec (0 + Z.of_nat k * n) 0); [lia|].
  destruct (Z.ltb_spec (0 + Z.of_nat k * n + n) 0); [lia|].
  replace (Z.to_nat (Z.min (0 + Z.of_nat k * n) (Z.of_nat (length lst))))
    with (k * Z.to_nat n)%nat by lia.
  set (d := drop (k * Z.to_nat n) lst).
  assert (length d = (length lst - k * Z.to_nat n)%nat) as Hd by apply length_drop.
  destruct (Z.le_ge_cases (0 + Z.of_nat k * n + n) (Z.of_nat (length lst))).
  - f_equal. lia.
  - rewrite !take_ge; [done|lia..].
Qed.

(** What [divide] returns for a positive [n], chunk by chunk *)
Lemma divide_closed_form {A} (lst : list A) (n : Z) :
  0 < n →
  seller.divide lst n =
  Ret ((λ k, take (Z.to_nat n) (drop (k * Z.to_nat n) lst)) <$>
         seq 0 (Z.to_nat (range_length 0 (Z.of_nat (length lst)) n))).
Proof.
  intros Hn. unfold seller.divide, range.
  destruct (Z.eqb_spec n 0); [lia|]. simpl. f_equal.
  rewrite <- list_fmap_compose. apply list_fmap_ext. intros i k Hk. simpl.
  apply lookup_seq in Hk as [-> Hk].
  apply slice_chunk; [done|].
  pose proof (range_length_bounds (Z.of_nat (length lst)) n Hn ltac:(lia)) as (? & ? & ?).
  simpl.
  generalize dependent (range_length 0 (Z.of_nat (length lst)) n). intros c ????.
  assert (Z.of_nat i ≤ c - 1) by lia.
  nia.
Qed.

Lemma concat_chunks {A} (N cnt : nat) (lst : list A) :
  (length lst ≤ cnt * N)%nat →
  concat ((λ k, take N (drop (k * N) lst)) <$> seq 0 cnt) = lst.
Proof.
  revert lst. induction cnt as [|cnt IH]; intros lst Hlen.
  { simpl in *. destruct lst; [done|simpl in Hlen; lia]. }
  rewrite <- cons_seq, fmap_cons, <- fmap_S_seq, <- list_fmap_compose. simpl.
  rewrite drop_0.
  rewrite (list_fmap_ext _ (λ k, take N (drop (k * N) (drop N lst)))).
  - rewrite IH; [apply take_drop|]. rewrite length_drop. lia.
  - intros i k _. simpl. rewrite drop_drop. done.
Qed.

(** C4.  For [n > 0], [divide] yields consecutive chunks whose concatenation
    is the list; every chunk has at most [n] elements and at least one, every
    chunk but the last has exactly [n], and the empty list yields no chunk. *)
Theorem divide_chunks :
  seller.divide [1; 2; 3; 4; 5] 2 = Ret [[1; 2]; [3; 4]; [5]] ∧
  ∀ (A : Type) (lst : list A) (n : Z), 0 < n →
    ∃ chunks, seller.divide lst n = Ret chunks ∧
      concat chunks = lst ∧
      Forall (λ c, 0 < Z.of_nat (length c) ≤ n) chunks ∧
      (∀ i c, chunks !! i = Some c → (S i < length chunks)%nat → Z.of_nat (length c) = n) ∧
      (lst = [] → chunks = []).
Proof.
  split; [done|]. intros A lst n Hn. eexists. split; [by apply divide_closed_form|].
  pose proof (range_length_bounds (Z.of_nat (length lst)) n Hn ltac:(lia)) as (Hc0 & Hc1 & Hc2).
  set (cnt := Z.to_nat (range_length 0 (Z.of_nat (length lst)) n)) in *.
  split_and!.
  - apply concat_chunks. lia.
  - apply Forall_fmap, Forall_forall. intros k Hk%elem_of_seq. simpl.
    rewrite length_take, length_drop. nia.
  - intros i c Hi Hlt. rewrite length_fmap, length_seq in Hlt.
    rewrite list_lookup_fmap in Hi.
    destruct (seq 0 cnt !! i) as [k|] eqn:Hk; simplify_eq/=.
    apply lookup_seq in Hk as [-> _].
    rewrite length_take, length_drop. nia.
  - intros ->. subst cnt. unfold range_length. simpl. by destruct (0 <? n).
Qed.

Lemma divide_chunks_witness :
  ∃ chunks, seller.divide [1; 2; 3; 4; 5] 2 = Ret chunks ∧
    concat chunks = [1; 2; 3; 4; 5] ∧
    Forall (λ c, 0 < Z.of_nat (length c) ≤ 2) chunks ∧
    (∀ i c, chunks !! i = Some c → (S i < length chunks)%nat → Z.of_nat (length c) = 2) ∧
    ([1; 2; 3; 4; 5] = [] → chunks = []).
Proof. apply (proj2 divide_chunks Z [1; 2; 3; 4; 5] 2). lia. Defined.

(** * Price reconciliation *)

Lemma collect_Ret {A B} (f : A → outcome B) l bs :
  collect f l = Ret bs → Forall2 (λ a b, f a = Ret b) l bs.
Proof.
  revert bs. induction l as [|x l IH]; intros bs H; simpl in H.
  { simplify_eq. constructor. }
  destruct (f x) as [b|] eqn:Hx; [|done].
  destruct (collect f l) as [bs'|]; simplify_eq. constructor; [done|by apply IH].
Qed.

Lemma collect_Raise {A B} (f : A → outcome B) l e :
  collect f l = Raise e → ∃ a, a ∈ l ∧ f a = Raise e.
Proof.
  induction l as [|x l IH]; intros H; simpl in H; [done|].
  destruct (f x) as [b|e'] eqn:Hx.
  - destruct (collect f l) as [bs'|e']; simplify_eq.
    destruct IH as (a & ? & ?); [done|]. exists a. split; [by right|done].
  - simplify_eq. exists x. split; [by left|done].
Qed.

Section price_loop.
Context {P : Type} (price_of : gmap string pyval → outcome P).

Lemma gen_prices_loop ws acc offers :
  for_each ws (gen_prices_body price_of) acc offers =
  (match collect price_of (known_records ws offers) with
   | Ret ps => Ret (acc ++ ps)
   | Raise e => Raise e
   end, offers).
Proof.
  revert acc. induction ws as [|w ws IH]; intros acc; simpl.
  { by rewrite app_nil_r. }
  unfold known_records. rewrite filter_cons. fold (known_records ws offers).
  unfold mbind at 1, SE_bind at 1. unfold gen_prices_body at 1.
  unfold mbind, SE_bind, get_state, lift, mret, SE_ret. fold (code w).
  destruct (list_in (code w) offers) eqn:Hin.
  - apply list_in_true in Hin. rewrite decide_True by done. simpl.
    destruct (price_of w) as [p|e]; [|done].
    rewrite IH. destruct (collect price_of (known_records ws offers)); [|done].
    by rewrite <- app_assoc.
  - apply list_in_false in Hin. rewrite decide_False by done. apply IH.
Qed.
End price_loop.

Lemma seller_create_prices_collect ws offers :
  seller.create_prices ws offers = (collect seller_price_of (known_records ws offers), offers).
Proof.
  unfold seller.create_prices.
  rewrite (for_each_ext _ _ (gen_prices_body seller_price_of)).
  - rewrite gen_prices_loop. by destruct (collect _ _).
  - intros w acc s. unfold seller.prices_body, gen_prices_body, seller_price_of.
    unfold mbind, SE_bind, outcome_bind, get_state, lift. fold (code w).
    destruct (list_in (code w) s); [|done].
    by destruct (seller.expect_str (dict_get w "Цена")).
Qed.

Lemma market_create_prices_collect ws offers :
  market.create_prices ws offers = (collect market_price_of (known_records ws offers), offers).
Proof.
  unfold market.create_prices.
  rewrite (for_each_ext _ _ (gen_prices_body market_price_of)).
  - rewrite gen_prices_loop. by destruct (collect _ _).
  - intros w acc s. unfold market.prices_body, gen_prices_body, market_price_of.
    unfold mbind, SE_bind, outcome_bind, get_state, lift. fold (code w).
    destruct (list_in (code w) s); [|done].
    destruct (seller.expect_str (dict_get w "Цена")) as [cell|]; [|done].
    by destruct (int (PStr (seller.price_conversion cell))).
Qed.

(** ** [int] on what [price_conversion] returns *)

Lemma lstrip_digits l : Forall (λ c, is_0_9 c = true) l → lstrip l = l.
Proof. destruct 1 as [|c l Hc _]; simpl; [done|]. by rewrite is_0_9_not_space. Qed.

Lemma strip_digits l : Forall (λ c, is_0_9 c = true) l → strip l = l.
Proof.
  intros H. unfold strip. rewrite (lstrip_digits l H).
  rewrite lstrip_digits by by apply Forall_reverse. apply reverse_involutive.
Qed.

Lemma int_digits_digits l acc b :
  Forall (λ c, is_0_9 c = true) l → l ≠ [] ∨ b = true → is_Some (int_digits l acc b).
Proof.
  intros H. revert acc b. induction H as [|c l Hc _ IH]; intros acc b Hb; simpl.
  - destruct Hb as [?| ->]; [done|by eexists].
  - rewrite Hc. apply IH. by right.
Qed.

Lemma re_sub_not_0_9_digits s :
  Forall (λ c, is_0_9 c = true) (list_ascii_of_string (re_sub_not_0_9 s)).
Proof.
  induction s as [|c s IH]; simpl; [constructor|].
  destruct (is_0_9 c) eqn:Hc; [by constructor|done].
Qed.

(** [int] accepts every non-empty string of ASCII digits, and rejects the
    empty string. *)
Lemma int_price_conversion cell :
  match int (PStr (seller.price_conversion cell)) with
  | Ret _ => seller.price_conversion cell ≠ EmptyString
  | Raise e => e = ValueError ∧ seller.price_conversion cell = EmptyString
  end.
Proof.
  unfold seller.price_conversion. set (t := hd EmptyString (split cell ".")).
  pose proof (re_sub_not_0_9_digits t) as Hd.
  destruct (re_sub_not_0_9 t) as [|c d] eqn:Ht; [done|].
  simpl. unfold int_literal. rewrite strip_digits by done.
  simpl in *. apply Forall_cons in Hd as [Hc Hd].
  assert (c ≠ "-"%char) by (by intros ->).
  assert (c ≠ "+"%char) by (by intros ->).
  rewrite !bool_decide_eq_false_2 by done.
  simpl. rewrite Hc.
    pose proof (λ acc, int_digits_digits (list_ascii_of_string d) acc true Hd
                         (or_intror eq_refl)) as Hsome.
    match goal with
    | |- context [int_digits _ ?a true] => destruct (Hsome a) as [z ->]
    end.
    done.
Qed.

Lemma seller_price_of_returns w cell :
  dict_get w "Цена" = PStr cell → returns (seller_price_of w).
Proof. intros H. unfold seller_price_of. rewrite H. by eexists. Qed.

Lemma market_price_of_cases w cell :
  dict_get w "Цена" = PStr cell →
  (¬ no_digit_before_first_point cell ∧ returns (market_price_of w)) ∨
  (no_digit_before_first_point cell ∧ market_price_of w = Raise ValueError).
Proof.
  intros H. unfold market_price_of. rewrite H.
  unfold seller.expect_str, mbind, outcome_bind.
  pose proof (int_price_conversion cell) as Hint.
  rewrite <- price_conversion_empty.
  destruct (int (PStr (seller.price_conversion cell))) as [v|e].
  - left. split; [done|]. by eexists.
  - right. by destruct Hint as [-> ?].
Qed.

Lemma collect_returns {A B} (f : A → outcome B) l :
  (∀ a, a ∈ l → returns (f a)) → returns (collect f l).
Proof.
  intros H. destruct (collect f l) as [bs|e] eqn:Hc; [by eexists|].
  apply collect_Raise in Hc as (a & Ha & He). destruct (H a Ha). congruence.
Qed.

(** X26.  Both [create_prices] functions leave the list of identifiers as
    it was; when they return, the result holds exactly one update per
    inventory record whose code is in the list, in inventory order, and
    nothing else.  The Ozon variant returns whenever the price of every such
    record is a string; the Yandex Market variant returns whenever, in
    addition, every such price holds a digit before its first decimal
    point. *)
Theorem create_prices_frame (ws : list (gmap string pyval)) (offers : list string) :
  (seller.create_prices ws offers).2 = offers ∧
  (market.create_prices ws offers).2 = offers ∧
  (∀ prices, (seller.create_prices ws offers).1 = Ret prices →
     Forall2 (λ w p, seller_price_of w = Ret p) (known_records ws offers) prices) ∧
  (∀ prices, (market.create_prices ws offers).1 = Ret prices →
     Forall2 (λ w p, market_price_of w = Ret p) (known_records ws offers) prices) ∧
  ((∀ w, w ∈ known_records ws offers → ∃ cell, dict_get w "Цена" = PStr cell) →
     returns (seller.create_prices ws offers).1) ∧
  ((∀ w, w ∈ known_records ws offers →
      ∃ cell, dict_get w "Цена" = PStr cell ∧ ¬ no_digit_before_first_point cell) →
     returns (market.create_prices ws offers).1).
Proof.
  rewrite seller_create_prices_collect, market_create_prices_collect. simpl.
  split_and!; [done|done|apply collect_Ret|apply collect_Ret|..].
  - intros H. apply collect_returns. intros w Hw.
    destruct (H w Hw) as [cell Hcell]. by eapply seller_price_of_returns.
  - intros H. apply collect_returns. intros w Hw.
    destruct (H w Hw) as (cell & Hcell & Hdigit).
    by destruct (market_price_of_cases w cell Hcell) as [[_ ?]|[? _]].
Qed.

Lemma create_prices_frame_witness :
  returns (market.create_prices [scenario_record] scenario_offers).1.
Proof.
  apply (proj2 (proj2 (proj2 (proj2 (proj2
           (create_prices_frame [scenario_record] scenario_offers)))))).
  intros w Hw. exists "100.00 р.".
  assert (w = scenario_record) as ->.
  { apply list_elem_of_filter in Hw as [_ Hw]. by apply list_elem_of_singleton in Hw. }
  split; [reflexivity|].
  intros Hno. apply price_conversion_empty in Hno. vm_compute in Hno. discriminate Hno.
Defined.

(** C6.  One inventory record with a known code and an empty price cell.
    The Ozon [create_prices] returns the one update that the claim promises,
    with the empty string as its price.  The Yandex Market [create_prices],
    whose docstring says that it raises nothing, raises ValueError and
    emits no update.  Both leave the list of identifiers as it was. *)
Theorem market_create_prices_raises :
  let ws : list (gmap string pyval) := [ {[ "Код" := PStr "A"; "Цена" := PStr "" ]} ] in
  known_records ws ["A"] = ws ∧
  seller.create_prices ws ["A"] =
    (Ret [ {| seller.auto_action_enabled := "UNKNOWN"; seller.currency_code := "RUB";
              seller.price_offer_id := "A"; seller.old_price := "0";
              seller.price := EmptyString |} ], ["A"]) ∧
  market.create_prices ws ["A"] = (Raise ValueError, ["A"]) ∧
  ¬ ∃ prices, (market.create_prices ws ["A"]).1 = Ret prices.
Proof.
  split_and!; try (vm_compute; reflexivity).
  intros [prices H]. vm_compute in H. discriminate H.
Qed.

(** C10, as amended.  A record with a known code whose price string holds
    no digit before its first decimal point, in an inventory whose known
    records all have a string as price: [int] rejects the empty string that
    [price_conversion] returns, so the Yandex Market [create_prices] raises
    ValueError, while the Ozon [create_prices] returns and emits the empty
    string as the price of that record. *)
Theorem digit_free_price (ws : list (gmap string pyval)) (offers : list string)
    (w : gmap string pyval) (cell : string) :
  w ∈ ws → code w ∈ offers →
  dict_get w "Цена" = PStr cell → no_digit_before_first_point cell →
  (∀ w', w' ∈ ws → code w' ∈ offers → ∃ c, dict_get w' "Цена" = PStr c) →
  int (PStr (seller.price_conversion cell)) = Raise ValueError ∧
  (market.create_prices ws offers).1 = Raise ValueError ∧
  ∃ prices, (seller.create_prices ws offers).1 = Ret prices ∧
    {| seller.auto_action_enabled := "UNKNOWN"; seller.currency_code := "RUB";
       seller.price_offer_id := code w; seller.old_price := "0";
       seller.price := EmptyString |} ∈ prices.
Proof.
  intros Hw Hcode Hcell Hno Hstr.
  assert (w ∈ known_records ws offers) as Hknown by by apply list_elem_of_filter.
  assert (∀ w', w' ∈ known_records ws offers → ∃ c, dict_get w' "Цена" = PStr c) as Hstr'.
  { intros w' [? ?]%list_elem_of_filter. by apply Hstr. }
  pose proof (proj2 (price_conversion_empty cell) Hno) as Hempty.
  split_and!.
  - by rewrite Hempty.
  - rewrite market_create_prices_collect. simpl.
    destruct (collect market_price_of (known_records ws offers)) as [ps|e] eqn:Hc.
    + apply collect_Ret in Hc.
      apply list_elem_of_lookup in Hknown as [i Hi].
      destruct (Forall2_lookup_l _ _ _ _ _ Hc Hi) as (p & _ & Hp).
      destruct (market_price_of_cases w cell Hcell) as [[? _]|[_ ?]]; [done|congruence].
    + apply collect_Raise in Hc as (w' & Hw' & He).
      destruct (Hstr' w' Hw') as [c Hc'].
      destruct (market_price_of_cases w' c Hc') as [[_ [? ?]]|[_ ?]]; congruence.
  - rewrite seller_create_prices_collect. simpl.
    destruct (collect_returns seller_price_of (known_records ws offers)) as [ps Hps].
    { intros w' Hw'. destruct (Hstr' w' Hw'). by eapply seller_price_of_returns. }
    exists ps. split; [done|]. apply collect_Ret in Hps.
    apply list_elem_of_lookup in Hknown as [i Hi].
    destruct (Forall2_lookup_l _ _ _ _ _ Hps Hi) as (p & Hp & Hpw).
    unfold seller_price_of in Hpw. rewrite Hcell in Hpw. simpl in Hpw.
    rewrite Hempty in Hpw. simplify_eq. by eapply list_elem_of_lookup_2.
Qed.

Lemma digit_free_price_witness :
  (market.create_prices [ {[ "Код" := PStr "A"; "Цена" := PStr "" ]} ] ["A"]).1
  = Raise ValueError.
Proof.
  refine (proj1 (proj2 (digit_free_price
            [ {[ "Код" := PStr "A"; "Цена" := PStr "" ]} ] ["A"]
            {[ "Код" := PStr "A"; "Цена" := PStr "" ]} "" _ _ _ _ _))).
  - left.
  - apply (bool_decide_unpack _). vm_compute. exact I.
  - reflexivity.
  - apply (bool_decide_unpack _). vm_compute. exact I.
  - intros w' Hw' _. apply list_elem_of_singleton in Hw' as ->. by exists "".
Defined.

(** C10 as stated fails when another record with a known code has no price
    string: record "B" has a known code and a price string without a digit,
    but the record "A" before it has no price, and both [create_prices]
    functions raise AttributeError there. *)
Lemma digit_free_price_counterexample :
  let ws : list (gmap string pyval) :=
    [ {[ "Код" := PStr "A" ]}; {[ "Код" := PStr "B"; "Цена" := PStr "" ]} ] in
  let w : gmap string pyval := {[ "Код" := PStr "B"; "Цена" := PStr "" ]} in
  (w ∈ ws ∧ code w ∈ ["A"; "B"] ∧ dict_get w "Цена" = PStr "" ∧
   no_digit_before_first_point "") ∧
  market.create_prices ws ["A"; "B"] = (Raise AttributeError, ["A"; "B"]) ∧
  seller.create_prices ws ["A"; "B"] = (Raise AttributeError, ["A"; "B"]).
Proof.
  split_and!; try (vm_compute; reflexivity).
  - apply (bool_decide_unpack _). vm_compute. exact I.
  - apply (bool_decide_unpack _). vm_compute. exact I.
  - apply (bool_decide_unpack _). vm_compute. exact I.
Qed.

(** * The orchestration *)

(** ** Loading [market.py] *)

(** Line 67 of [market.py] unindents to column 4 while the stack holds the
    columns 0 and 5: the file is rejected. *)
Lemma market_py_does_not_load : load_module market_py_lines = Raise IndentationError.
Proof. vm_compute. reflexivity. Qed.

Lemma market_py_reindented_loads : load_module (reindent 50 4 market_py_lines) = Ret tt.
Proof. vm_compute. reflexivity. Qed.

(** A run of [market.py] as shipped ends before its first statement. *)
Lemma market_script_shipped {World} (c : market.Collaborators World) w :
  market_script market_py_lines c w = (Raise IndentationError, w).
Proof. unfold market_script, mbind, SE_bind, lift. by rewrite market_py_does_not_load. Qed.

(** With line 50 at column 4 a run of [market.py] is a run of [main]. *)
Lemma market_script_reindented {World} (c : market.Collaborators World) w :
  market_script (reindent 50 4 market_py_lines) c w = market.main c w.
Proof.
  unfold market_script, mbind, SE_bind, lift. rewrite market_py_reindented_loads.
  by destruct (market.main c w) as [[[]|?] ?].
Qed.

(** C7.  The end-to-end scenario.  A run of [seller.main] sends the stock
    updates A=100, B=0, C=0 and no price update: the price pass reads the
    list that the stock pass has emptied of "A".  The body of
    [upload_prices] of [seller.py], which fetches a list of its own, does
    send the one update for "A" with price "100".  A run of [market.py]
    sends nothing at all, whatever the collaborators: the file is rejected
    with IndentationError before its first statement. *)
Theorem scenario_main_sends_no_price :
  seller.main (seller_run scenario_offers [scenario_record]) [] =
    (Ret tt, [SellerStocks [ {| seller.offer_id := "A"; seller.stock := 100 |};
                             {| seller.offer_id := "B"; seller.stock := 0 |};
                             {| seller.offer_id := "C"; seller.stock := 0 |} ]]) ∧
  seller.upload_prices (seller_run scenario_offers [scenario_record])
      [scenario_record] "id" "token" [] =
    (Ret [ {| seller.auto_action_enabled := "UNKNOWN"; seller.currency_code := "RUB";
              seller.price_offer_id := "A"; seller.old_price := "0";
              seller.price := "100" |} ],
     [SellerPrices [ {| seller.auto_action_enabled := "UNKNOWN";
                        seller.currency_code := "RUB";
                        seller.price_offer_id := "A"; seller.old_price := "0";
                        seller.price := "100" |} ]]) ∧
  load_module market_py_lines = Raise IndentationError ∧
  (∀ World (c : market.Collaborators World) (w : World),
     market_script market_py_lines c w = (Raise IndentationError, w)) ∧
  market_script market_py_lines (market_run scenario_offers [scenario_record]) []
    = (Raise IndentationError, []).
Proof.
  split_and!; try (intros World c w; apply market_script_shipped);
    vm_compute; reflexivity.
Qed.

(** ** Errors reaching [main] *)

Lemma seller_main_unfold {World} (c : seller.Collaborators World) w :
  seller.main c w =
  match seller.env_str c "SELLER_TOKEN" with
  | Ret seller_token =>
      match seller.env_str c "CLIENT_ID" with
      | Ret client_id => seller.try_except c (seller.main_try c client_id seller_token) w
      | Raise e => (Raise e, w)
      end
  | Raise e => (Raise e, w)
  end.
Proof.
  unfold seller.main, mbind, SE_bind, lift.
  destruct (seller.env_str c "SELLER_TOKEN"); [|done].
  by destruct (seller.env_str c "CLIENT_ID").
Qed.

(** Whatever the [try] block of [seller.main] raises is printed by one of the
    three clauses, and [main] returns. *)
Lemma seller_main_handles {World} (c : seller.Collaborators World) w token id :
  seller.env_str c "SELLER_TOKEN" = Ret token →
  seller.env_str c "CLIENT_ID" = Ret id →
  seller.main c w =
  match seller.main_try c id token w with
  | (Ret _, w') => (Ret tt, w')
  | (Raise e, w') => (Ret tt, seller.print c (seller.main_except e) w')
  end.
Proof. intros Ht Hi. rewrite seller_main_unfold, Ht, Hi. done. Qed.

(** The inventory download is inside the [try] block of [seller.main] ... *)
Lemma seller_main_download_raises {World} (c : seller.Collaborators World)
    w token id ids w1 e w2 :
  seller.env_str c "SELLER_TOKEN" = Ret token →
  seller.env_str c "CLIENT_ID" = Ret id →
  seller.get_offer_ids c id token w = (Ret ids, w1) →
  seller.download_stock c w1 = (Raise e, w2) →
  seller.main c w = (Ret tt, seller.print c (seller.main_except e) w2).
Proof.
  intros Ht Hi Hget Hdl. rewrite (seller_main_handles c w token id Ht Hi).
  unfold seller.main_try, mbind, SE_bind. by rewrite Hget, Hdl.
Qed.

(** ... and before the [try] block of [market.main]. *)
Lemma market_main_download_raises {World} (c : market.Collaborators World) w e w' :
  returns (market.env_str c "MARKET_TOKEN") →
  returns (market.env_str c "FBS_ID") →
  returns (market.env_str c "DBS_ID") →
  returns (market.env_str c "WAREHOUSE_FBS_ID") →
  returns (market.env_str c "WAREHOUSE_DBS_ID") →
  market.download_stock c w = (Raise e, w') →
  market.main c w = (Raise e, w').
Proof.
  intros [? H1] [? H2] [? H3] [? H4] [? H5] Hdl.
  unfold market.main, mbind, SE_bind, lift. by rewrite H1, H2, H3, H4, H5, Hdl.
Qed.

(** C8.  A connection error raised by the inventory download: [seller.main]
    catches it in its second clause, prints and returns.  A run of
    [market.py] as shipped never reaches a handler: the file is rejected
    with IndentationError, which leaves the program unhandled, whatever the
    collaborators.  Behind that failure lies a second one: with line 50 of
    [market.py] moved to column 4 the file loads, and since [main] calls
    [download_stock] before its [try] block, the connection error leaves
    [main] unhandled and nothing is printed. *)
Theorem download_error_escapes_market_main :
  seller.main seller_offline [] =
    (Ret tt, [SellerPrinted [seller.Exc ConnectionError; seller.Text "Ошибка соединения"]]) ∧
  (∀ World (c : market.Collaborators World) (w : World),
     market_script market_py_lines c w = (Raise IndentationError, w)) ∧
  market_script market_py_lines market_offline [] = (Raise IndentationError, []) ∧
  load_module (reindent 50 4 market_py_lines) = Ret tt ∧
  market_script (reindent 50 4 market_py_lines) market_offline []
    = (Raise ConnectionError, []).
Proof.
  split_and!; try (intros World c w; apply market_script_shipped);
    vm_compute; reflexivity.
Qed.

Lemma market_main_handles {World} (c : market.Collaborators World) w ws w1
    token fbs dbs wfbs wdbs :
  market.env_str c "MARKET_TOKEN" = Ret token →
  market.env_str c "FBS_ID" = Ret fbs →
  market.env_str c "DBS_ID" = Ret dbs →
  market.env_str c "WAREHOUSE_FBS_ID" = Ret wfbs →
  market.env_str c "WAREHOUSE_DBS_ID" = Ret wdbs →
  market.download_stock c w = (Ret ws, w1) →
  market.main c w =
  match market.main_try c ws token fbs dbs wfbs wdbs w1 with
  | (Ret _, w') => (Ret tt, w')
  | (Raise e, w') => (Ret tt, market.print c (market.main_except e) w')
  end.
Proof.
  intros H1 H2 H3 H4 H5 Hdl.
  unfold market.main, mbind, SE_bind, lift. by rewrite H1, H2, H3, H4, H5, Hdl.
Qed.

(** ** The price pass after the stock pass *)

(** What the first loop takes out of the list are codes of inventory
    records. *)
Lemma matched_pass_codes ws st m st' :
  matched_pass ws st = (Ret m, st') → ∀ i, i ∈ m.*1 → i ∈ code <$> ws.
Proof.
  revert st m. induction ws as [|w ws IH]; intros st m H i Hi; simpl in H.
  { simplify_eq. by apply elem_of_nil in Hi. }
  rewrite fmap_cons. destruct (list_in (code w) st).
  - destruct (seller.stock_of w) as [q|]; [|done].
    destruct (remove_first (code w) st) as [st1|]; [|done].
    destruct (matched_pass ws st1) as [[m1|] st2] eqn:Hrec; simplify_eq.
    simpl in Hi. apply elem_of_cons in Hi as [->|Hi]; [by left|].
    right. by eapply IH.
  - right. by eapply IH.
Qed.

Lemma matched_pass_rest ws offers m rest :
  NoDup offers → matched_pass ws offers = (Ret m, rest) →
  rest = filter (λ i, i ∉ code <$> ws) offers.
Proof. intros Hnd H. by destruct (matched_pass_NoDup _ _ _ _ Hnd H) as (_ & ? & _). Qed.

Lemma known_records_unmatched ws offers :
  known_records ws (filter (λ i, i ∉ code <$> ws) offers) = [].
Proof.
  unfold known_records. apply filter_none. apply Forall_forall.
  intros w Hw [Hn _]%list_elem_of_filter. apply Hn. by apply list_elem_of_fmap_2.
Qed.

Lemma seller_main_try_update_price {World} (c : seller.Collaborators World) up id token w :
  (∀ w ids w', seller.get_offer_ids c id token w = (Ret ids, w') → NoDup ids) →
  seller.main_try (seller_with_update_price c up) id token w = seller.main_try c id token w.
Proof.
  intros Hnd. unfold seller.main_try, mbind, SE_bind, lift, seller.call_on.
  cbn [seller.update_price seller.get_offer_ids seller.download_stock
       seller.update_stocks seller_with_update_price].
  destruct (seller.get_offer_ids c id token w) as [[ids|e] w1] eqn:Hget; [|done].
  destruct (seller.download_stock c w1) as [[ws|e] w2]; [|done].
  pose proof (seller_create_stocks_reconcile ws ids) as Hcs. unfold reconcile in Hcs.
  destruct (matched_pass ws ids) as [[m|e] rest] eqn:Hm; simpl in Hcs; rewrite Hcs; [|done].
  apply matched_pass_rest in Hm; [|by eapply Hnd]. subst rest.
  destruct (seller.divide (seller_entry <$> _) 100) as [batches|e]; [|done].
  destruct (for_each batches _ tt w2) as [[[]|e] w3]; [|done].
  rewrite seller_create_prices_collect, known_records_unmatched. done.
Qed.

Lemma market_main_try_update_price {World} (c : market.Collaborators World) up
    ws token fbs dbs wfbs wdbs :
  market.main_try (market_with_update_price c up) ws token fbs dbs wfbs wdbs =
  market.main_try c ws token fbs dbs wfbs wdbs.
Proof. done. Qed.

(** C9, as amended.  [create_stocks] moves every identifier it matches from
    the caller's list into the result and leaves the others, which it
    zero-fills, in the list.  On a duplicate-free list, what is left are the
    identifiers that no inventory record carries, so [create_prices] on the
    same list afterwards emits nothing; [seller.main] therefore never calls
    [update_price] when the catalog is duplicate-free.  [market.main] never
    calls it either: its price pass is a coroutine that is not awaited. *)
Theorem price_pass_after_stock_pass :
  (∀ ws offers stocks rest,
     seller.create_stocks ws offers = (Ret stocks, rest) →
     ∃ matched, stocks = seller_entry <$> (matched ++ ((λ i, (i, 0)) <$> rest)) ∧
                matched.*1 ++ rest ≡ₚ offers ∧
                ∀ i, i ∈ matched.*1 → i ∈ code <$> ws) ∧
  (∀ ws wh date offers stocks rest,
     market.create_stocks ws wh date offers = (Ret stocks, rest) →
     ∃ matched, stocks = market_entry wh date <$> (matched ++ ((λ i, (i, 0)) <$> rest)) ∧
                matched.*1 ++ rest ≡ₚ offers ∧
                ∀ i, i ∈ matched.*1 → i ∈ code <$> ws) ∧
  (∀ ws offers stocks rest,
     NoDup offers → seller.create_stocks ws offers = (Ret stocks, rest) →
     rest = filter (λ i, i ∉ code <$> ws) offers ∧
     seller.create_prices ws rest = (Ret [], rest)) ∧
  (∀ World (c : seller.Collaborators World) up w,
     (∀ id token w ids w', seller.get_offer_ids c id token w = (Ret ids, w') → NoDup ids) →
     seller.main (seller_with_update_price c up) w = seller.main c w) ∧
  (∀ World (c : market.Collaborators World) up w,
     market.main (market_with_update_price c up) w = market.main c w).
Proof.
  split_and!.
  - intros ws offers stocks rest. rewrite seller_create_stocks_reconcile.
    unfold reconcile, map_outcome.
    destruct (matched_pass ws offers) as [[m|e] st'] eqn:Hm; intros [= <- <-].
    exists m. split_and!; [done|by eapply matched_pass_perm|by eapply matched_pass_codes].
  - intros ws wh date offers stocks rest. rewrite market_create_stocks_reconcile.
    unfold reconcile, map_outcome.
    destruct (matched_pass ws offers) as [[m|e] st'] eqn:Hm; intros [= <- <-].
    exists m. split_and!; [done|by eapply matched_pass_perm|by eapply matched_pass_codes].
  - intros ws offers stocks rest Hnd. rewrite seller_create_stocks_reconcile.
    unfold reconcile, map_outcome.
    destruct (matched_pass ws offers) as [[m|e] st'] eqn:Hm; intros [= <- <-].
    apply matched_pass_rest in Hm as ->; [|done]. split; [done|].
    by rewrite seller_create_prices_collect, known_records_unmatched.
  - intros World c up w Hnd. rewrite !seller_main_unfold. simpl.
    destruct (seller.env_str c "SELLER_TOKEN") as [token|]; [|done].
    destruct (seller.env_str c "CLIENT_ID") as [id|]; [|done].
    unfold seller.try_except. rewrite seller_main_try_update_price by apply Hnd. done.
  - done.
Qed.

Lemma price_pass_after_stock_pass_witness :
  seller.create_prices [scenario_record] ["B"; "C"] = (Ret [], ["B"; "C"]).
Proof.
  refine (proj2 (proj1 (proj2 (proj2 price_pass_after_stock_pass))
                   [scenario_record] scenario_offers
                   [ {| seller.offer_id := "A"; seller.stock := 100 |};
                     {| seller.offer_id := "B"; seller.stock := 0 |};
                     {| seller.offer_id := "C"; seller.stock := 0 |} ] ["B"; "C"] _ _)).
  - apply (bool_decide_unpack _). vm_compute. exact I.
  - vm_compute. reflexivity.
Defined.

(** C9 as stated fails when the catalog lists an identifier twice: the stock
    pass matches "A" and removes one occurrence, and the price pass of
    [seller.main] on the same list still sends a price for "A". *)
Lemma price_pass_after_stock_pass_counterexample :
  let inventory : list (gmap string pyval) :=
    [ {[ "Код" := PStr "A"; "Количество" := PStr "5"; "Цена" := PStr "10" ]} ] in
  seller.main (seller_run ["A"; "A"] inventory) [] =
    (Ret tt,
     [SellerStocks [ {| seller.offer_id := "A"; seller.stock := 5 |};
                     {| seller.offer_id := "A"; seller.stock := 0 |} ];
      SellerPrices [ {| seller.auto_action_enabled := "UNKNOWN";
                        seller.currency_code := "RUB";
                        seller.price_offer_id := "A"; seller.old_price := "0";
                        seller.price := "10" |} ]]).
Proof. vm_compute. reflexivity. Qed.

(** * Further properties of the code *)

(** * Batching, further *)

(** X1.  A step of 0 makes [divide] raise ValueError, and a negative step
    makes it yield no chunk at all, whatever the list holds. *)
Theorem divide_nonpositive {A} (lst : list A) (n : Z) :
  (n = 0 → seller.divide lst n = Raise ValueError) ∧
  (n < 0 → seller.divide lst n = Ret []).
Proof.
  unfold seller.divide, range, range_length. split.
  - intros ->. done.
  - intros Hn. destruct (Z.eqb_spec n 0); [lia|].
    destruct (Z.ltb_spec 0 n); [lia|].
    destruct (Z.ltb_spec (Z.of_nat (length lst)) 0); [lia|]. done.
Qed.

Lemma divide_nonpositive_witness : seller.divide [1; 2; 3] (-2) = Ret [].
Proof. apply (proj2 (divide_nonpositive [1; 2; 3] (-2))). lia. Defined.

Lemma range_length_ceil (len n : Z) :
  0 < n → 0 ≤ len → range_length 0 len n = (len + n - 1) / n.
Proof.
  intros Hn Hlen. unfold range_length.
  destruct (Z.ltb_spec 0 n); [|lia].
  destruct (Z.ltb_spec 0 len).
  - rewrite Z.sub_0_r. replace (len + n - 1) with (len - 1 + 1 * n) by lia.
    by rewrite Z.div_add by lia.
  - assert (len = 0) as -> by lia. symmetry. apply Z.div_small. lia.
Qed.

(** X2.  For [n > 0], [divide] yields ceil(len / n) chunks, and element [j]
    of chunk [i] is element [i * n + j] of the list. *)
Theorem divide_positions {A} (lst : list A) (n : Z) :
  0 < n →
  ∃ chunks, seller.divide lst n = Ret chunks ∧
    Z.of_nat (length chunks) = (Z.of_nat (length lst) + n - 1) / n ∧
    ∀ (i j : nat) c, chunks !! i = Some c → Z.of_nat j < n →
      c !! j = lst !! (i * Z.to_nat n + j)%nat.
Proof.
  intros Hn. eexists. split; [by apply divide_closed_form|].
  pose proof (range_length_bounds (Z.of_nat (length lst)) n Hn ltac:(lia)) as (Hc0 & _ & _).
  split.
  - rewrite length_fmap, length_seq, Z2Nat.id by done.
    apply range_length_ceil; lia.
  - intros i j c Hi Hj. rewrite list_lookup_fmap in Hi.
    destruct (seq 0 _ !! i) as [k|] eqn:Hk; simplify_eq/=.
    apply lookup_seq in Hk as [-> _].
    rewrite lookup_take_lt by lia. by rewrite lookup_drop.
Qed.

Lemma divide_positions_witness :
  ∃ chunks, seller.divide [10; 20; 30; 40; 50] 2 = Ret chunks ∧
    Z.of_nat (length chunks) = (Z.of_nat (length [10; 20; 30; 40; 50]) + 2 - 1) / 2 ∧
    ∀ (i j : nat) c, chunks !! i = Some c → Z.of_nat j < 2 →
      c !! j = [10; 20; 30; 40; 50] !! (i * Z.to_nat 2 + j)%nat.
Proof. apply (divide_positions [10; 20; 30; 40; 50] 2). lia. Defined.

(** * Price parsing, further *)

Lemma before_first_point_digits l :
  Forall (λ c, is_0_9 c = true) l → before_first_point l = l.
Proof.
  induction 1 as [|c l Hc _ IH]; simpl; [done|].
  rewrite bool_decide_eq_false_2; [by rewrite IH|]. by intros ->.
Qed.

Lemma string_of_list_ascii_length l :
  String.length (string_of_list_ascii l) = length l.
Proof. induction l as [|c l IH]; simpl; [done|]. by rewrite IH. Qed.

Lemma list_ascii_of_string_length s :
  length (list_ascii_of_string s) = String.length s.
Proof. induction s as [|c s IH]; simpl; [done|]. by rewrite IH. Qed.

Lemma before_first_point_length l : (length (before_first_point l) ≤ length l)%nat.
Proof.
  induction l as [|c l IH]; simpl; [done|].
  case_bool_decide; simpl; lia.
Qed.

(** X3.  What [price_conversion] returns consists of ASCII digits only and
    is no longer than its argument, and converting it again changes
    nothing. *)
Theorem price_conversion_digits_only (price : string) :
  Forall (λ c, is_0_9 c = true) (list_ascii_of_string (seller.price_conversion price)) ∧
  (String.length (seller.price_conversion price) ≤ String.length price)%nat ∧
  seller.price_conversion (seller.price_conversion price) = seller.price_conversion price.
Proof.
  assert (Forall (λ c, is_0_9 c = true)
            (list_ascii_of_string (seller.price_conversion price))) as Hd.
  { unfold seller.price_conversion. apply re_sub_not_0_9_digits. }
  split_and!; [done|..].
  - rewrite price_conversion_digits. unfold digits_before_first_point.
    rewrite string_of_list_ascii_length, <- list_ascii_of_string_length.
    etrans; [apply length_filter|]. apply before_first_point_length.
  - rewrite (price_conversion_digits (seller.price_conversion price)).
    unfold digits_before_first_point.
    rewrite before_first_point_digits by done.
    rewrite filter_all by done. apply string_of_list_ascii_of_string.
Qed.

Lemma before_first_point_app l1 l2 :
  before_first_point (l1 ++ "."%char :: l2) = before_first_point l1.
Proof.
  induction l1 as [|c l1 IH]; simpl; [done|].
  case_bool_decide; [done|]. by rewrite IH.
Qed.

Lemma list_ascii_of_string_append s1 s2 :
  list_ascii_of_string (String.append s1 s2) =
  list_ascii_of_string s1 ++ list_ascii_of_string s2.
Proof. induction s1 as [|c s1 IH]; simpl; [done|]. by rewrite IH. Qed.

(** X4.  [price_conversion] ignores everything from the first decimal point
    on: a point and any text appended to a price do not change the
    result. *)
Theorem price_conversion_ignores_fraction (price rest : string) :
  seller.price_conversion (String.append price (String "." rest)) =
  seller.price_conversion price.
Proof.
  rewrite !price_conversion_digits. unfold digits_before_first_point.
  rewrite list_ascii_of_string_append. cbn [list_ascii_of_string].
  by rewrite before_first_point_app.
Qed.

(** * Decimal text of integers *)

Lemma string_of_uint_digits d :
  Forall (λ c, is_0_9 c = true) (list_ascii_of_string (NilEmpty.string_of_uint d)).
Proof. induction d; simpl; by constructor. Qed.

Lemma int_digits_string_of_uint d acc b :
  d ≠ Decimal.Nil ∨ b = true →
  int_digits (list_ascii_of_string (NilEmpty.string_of_uint d)) acc b =
  Some (Z.of_N (Unsigned.of_lu (Decimal.rev d)) + acc * 10 ^ Z.of_N (Unsigned.usize d)).
Proof.
  revert acc b.
  induction d as [|d IH|d IH|d IH|d IH|d IH|d IH|d IH|d IH|d IH|d IH]; intros acc b Hb;
    [destruct Hb as [?| ->]; [done|]; simpl; f_equal; lia|..];
    unfold Decimal.rev; cbn [Decimal.revapp]; rewrite Unsigned.of_lu_revapp;
    fold (Decimal.rev d);
    cbn [NilEmpty.string_of_uint list_ascii_of_string int_digits];
    (replace (is_0_9 _) with true by done);
    rewrite IH by (by right);
    cbn [Unsigned.usize Unsigned.of_lu];
    rewrite N2Z.inj_succ, Z.pow_succ_r by lia;
    rewrite N2Z.inj_add, N2Z.inj_mul, N2Z.inj_pow;
    f_equal; unfold digit_value;
    change (Z.of_N 10) with 10;
    set (P := 10 ^ Z.of_N (Unsigned.usize d));
    set (R := Z.of_N (Unsigned.of_lu (Decimal.rev d))); clearbody P R;
    vm_compute (Z.of_N (N_of_ascii _));
    vm_compute (Z.of_N (_ + 10 * 0)) || vm_compute (Z.of_N (10 * 0)); ring.
Qed.

Lemma of_lu_rev_of_uint d : Z.of_N (Unsigned.of_lu (Decimal.rev d)) = Z.of_uint d.
Proof. unfold Z.of_uint. by rewrite Unsigned.of_uint_alt. Qed.

Lemma strip_middle c l c' :
  is_space c = false → is_space c' = false → strip (c :: l ++ [c']) = c :: l ++ [c'].
Proof.
  intros Hc Hc'. unfold strip. rewrite lstrip_not_space by done.
  rewrite reverse_cons, reverse_app. simpl.
  rewrite Hc'. rewrite <- (reverse_involutive (c :: l ++ [c'])).
  f_equal. by rewrite reverse_cons, reverse_app.
Qed.

Lemma strip_minus_digits l :
  Forall (λ c, is_0_9 c = true) l → l ≠ [] → strip ("-"%char :: l) = "-"%char :: l.
Proof.
  induction l as [|c l _] using rev_ind; intros Hd Hne; [done|].
  apply Forall_app in Hd as [_ Hd]. apply Forall_cons in Hd as [Hd _].
  apply strip_middle; [done|by apply is_0_9_not_space].
Qed.

Lemma string_of_uint_not_nil d :
  d ≠ Decimal.Nil → list_ascii_of_string (NilEmpty.string_of_uint d) ≠ [].
Proof. by destruct d. Qed.

(** [int(str(z))] gives [z] back. *)
Lemma int_str_roundtrip z : int (PStr (str (PInt z))) = Ret z.
Proof.
  unfold int, str, int_literal.
  pose proof (DecimalZ.of_to z) as Hz.
  destruct z as [|p|p]; cbn [Z.to_int NilZero.string_of_int] in *.
  - done.
  - pose proof (Unsigned.to_uint_nonnil p) as Hnn.
    set (d := Pos.to_uint p) in *.
    assert (NilZero.string_of_uint d = NilEmpty.string_of_uint d) as -> by by destruct d.
    rewrite strip_digits by apply string_of_uint_digits.
    pose proof (string_of_uint_digits d) as Hd.
    pose proof (int_digits_string_of_uint d 0 false (or_introl Hnn)) as Hi.
    destruct (list_ascii_of_string (NilEmpty.string_of_uint d)) as [|c l] eqn:Hl.
    { by destruct d. }
    apply Forall_cons in Hd as [Hc _].
    rewrite !bool_decide_eq_false_2 by (by intros ->).
    rewrite Hi, of_lu_rev_of_uint. simpl in Hz. rewrite Hz. f_equal; lia.
  - pose proof (Unsigned.to_uint_nonnil p) as Hnn.
    set (d := Pos.to_uint p) in *.
    assert (NilZero.string_of_uint d = NilEmpty.string_of_uint d) as -> by by destruct d.
    pose proof (string_of_uint_digits d) as Hd.
    pose proof (int_digits_string_of_uint d 0 false (or_introl Hnn)) as Hi.
    cbn [list_ascii_of_string].
    rewrite strip_minus_digits by (done || by apply string_of_uint_not_nil).
    rewrite bool_decide_eq_true_2 by done.
    rewrite Hi, of_lu_rev_of_uint. simpl in Hz. simpl. f_equal; lia.
Qed.

(** * Numeric cells *)

(** X5.  A quantity cell that holds a number [z] is reconciled as [z]
    itself, except 1, which becomes 0; it never raises.  Both variants. *)
Theorem stock_of_number_cell (w : gmap string pyval) (z : Z) :
  dict_get w "Количество" = PInt z →
  seller.stock_of w = Ret (if bool_decide (z = 1) then 0 else z) ∧
  market.stock_of w = Ret (if bool_decide (z = 1) then 0 else z).
Proof.
  intros Hw.
  assert (seller.stock_of w = Ret (if bool_decide (z = 1) then 0 else z)) as H; [|done].
  unfold seller.stock_of. rewrite Hw. pose proof (int_str_roundtrip z) as Hrt.
  case_bool_decide as H10.
  { rewrite H10 in Hrt. vm_compute in Hrt. discriminate Hrt. }
  case_bool_decide as H1.
  - rewrite H1 in Hrt. vm_compute in Hrt. simplify_eq. done.
  - rewrite bool_decide_eq_false_2; [done|]. intros ->. by apply H1.
Qed.

Lemma stock_of_number_cell_witness :
  seller.stock_of {[ "Количество" := PInt 12 ]} = Ret 12.
Proof.
  refine (proj1 (stock_of_number_cell {[ "Количество" := PInt 12 ]} 12 _)).
  vm_compute. reflexivity.
Defined.

Lemma price_conversion_of_digits s :
  Forall (λ c, is_0_9 c = true) (list_ascii_of_string s) → seller.price_conversion s = s.
Proof.
  intros Hd. rewrite price_conversion_digits. unfold digits_before_first_point.
  induction s as [|c s IH]; [done|]. simpl in *.
  apply Forall_cons in Hd as [Hc Hd].
  rewrite bool_decide_eq_false_2 by (by intros ->).
  rewrite filter_cons_True by done. simpl. by rewrite IH.
Qed.

Lemma price_conversion_minus s :
  seller.price_conversion (String "-" s) = seller.price_conversion s.
Proof.
  rewrite !price_conversion_digits. unfold digits_before_first_point.
  cbn [list_ascii_of_string before_first_point].
  rewrite bool_decide_eq_false_2 by done. by rewrite filter_cons_False.
Qed.

Lemma str_nonneg_digits z :
  0 ≤ z → Forall (λ c, is_0_9 c = true) (list_ascii_of_string (str (PInt z))).
Proof.
  intros Hz. destruct z as [|p|p]; [by repeat constructor| |lia].
  cbn [str Z.to_int NilZero.string_of_int].
  pose proof (Unsigned.to_uint_nonnil p).
  assert (NilZero.string_of_uint (Pos.to_uint p) = NilEmpty.string_of_uint (Pos.to_uint p))
    as -> by by destruct (Pos.to_uint p).
  apply string_of_uint_digits.
Qed.

Lemma str_negative p : str (PInt (Z.neg p)) = String "-" (str (PInt (Z.pos p))).
Proof. done. Qed.

(** X6.  A price written as the decimal text of an integer [z], a decimal
    point and any fraction is converted to the text of the absolute value of
    [z]: the fraction is cut off, not rounded, and a minus sign is lost.
    [int], as the Yandex Market variant applies it, then gives the absolute
    value of [z]. *)
Theorem price_conversion_of_decimal (z : Z) (fraction : string) :
  seller.price_conversion (String.append (str (PInt z)) (String "." fraction))
    = str (PInt (Z.abs z)) ∧
  int (PStr (seller.price_conversion
               (String.append (str (PInt z)) (String "." fraction))))
    = Ret (Z.abs z).
Proof.
  assert (seller.price_conversion (String.append (str (PInt z)) (String "." fraction))
          = str (PInt (Z.abs z))) as H.
  { rewrite price_conversion_digits. unfold digits_before_first_point.
    rewrite list_ascii_of_string_append. cbn [list_ascii_of_string].
    rewrite before_first_point_app.
    change (string_of_list_ascii (filter (λ c, is_0_9 c = true)
              (before_first_point (list_ascii_of_string (str (PInt z))))))
      with (digits_before_first_point (str (PInt z))).
    rewrite <- price_conversion_digits.
    destruct z as [|p|p].
    - done.
    - apply price_conversion_of_digits, str_nonneg_digits. lia.
    - rewrite str_negative, price_conversion_minus.
      apply price_conversion_of_digits, str_nonneg_digits. lia. }
  split; [done|]. rewrite H. apply int_str_roundtrip.
Qed.

(** * Stock reconciliation, further *)

Lemma remove_first_subseteq x l l' i : remove_first x l = Some l' → i ∈ l' → i ∈ l.
Proof. intros H Hi. apply remove_first_perm in H. rewrite H. by right. Qed.

Lemma matched_pass_known ws st offers :
  (∀ i, i ∈ st → i ∈ offers) →
  matched_pass ws st = matched_pass (known_records ws offers) st.
Proof.
  revert st. induction ws as [|w ws IH]; intros st Hsub; [done|].
  unfold known_records. rewrite filter_cons. fold (known_records ws offers).
  destruct (list_in (code w) st) eqn:Hin.
  - apply list_in_true in Hin as Hin'.
    rewrite decide_True by by apply Hsub.
    simpl. rewrite Hin.
    destruct (seller.stock_of w); [|done].
    destruct (remove_first (code w) st) as [st1|] eqn:Hrm; [|done].
    rewrite (IH st1); [done|].
    intros i Hi. apply Hsub. by eapply remove_first_subseteq.
  - simpl. rewrite Hin. case_decide; [|by apply IH].
    simpl. rewrite Hin. by apply IH.
Qed.

(** X7.  Inventory records whose code the marketplace does not know play no
    part in [create_stocks]: the call behaves as on the inventory without
    them, so a malformed quantity on such a record raises nothing, and with
    an empty catalog nothing is returned and nothing raised.  Both
    variants. *)
Theorem create_stocks_ignores_unknown (ws : list (gmap string pyval))
    (offers : list string) :
  seller.create_stocks ws offers = seller.create_stocks (known_records ws offers) offers ∧
  (∀ wh date, market.create_stocks ws wh date offers
              = market.create_stocks (known_records ws offers) wh date offers) ∧
  seller.create_stocks ws [] = (Ret [], []) ∧
  (∀ wh date, market.create_stocks ws wh date [] = (Ret [], [])).
Proof.
  assert (∀ offers, reconcile ws offers = reconcile (known_records ws offers) offers) as H.
  { intros o. unfold reconcile. by rewrite (matched_pass_known ws o o). }
  assert (known_records ws [] = []) as Hnil.
  { apply filter_none, Forall_forall. intros w _ Hw. by apply elem_of_nil in Hw. }
  split_and!.
  - by rewrite !seller_create_stocks_reconcile, H.
  - intros wh date. by rewrite !market_create_stocks_reconcile, H.
  - by rewrite seller_create_stocks_reconcile, H, Hnil.
  - intros wh date. by rewrite market_create_stocks_reconcile, H, Hnil.
Qed.

Lemma known_records_remove ws st x :
  x ∉ code <$> ws →
  known_records ws (filter (λ y, y ≠ x) st) = known_records ws st.
Proof.
  intros Hx. unfold known_records. apply filter_ext_elem. intros w Hw.
  rewrite list_elem_of_filter. split; [by intros [_ ?]|]. intros Hin. split; [|done].
  intros Heq. apply Hx. rewrite <- Heq. by apply list_elem_of_fmap_2.
Qed.

Lemma matched_pass_collect ws st :
  NoDup st → NoDup (code <$> ws) →
  (matched_pass ws st).1 = collect stock_pair_of (known_records ws st).
Proof.
  revert st. induction ws as [|w ws IH]; intros st Hst Hws; [done|].
  rewrite fmap_cons in Hws. apply NoDup_cons in Hws as [Hw Hws].
  unfold known_records. rewrite filter_cons. fold (known_records ws st).
  simpl. destruct (list_in (code w) st) eqn:Hin.
  - apply list_in_true in Hin as Hin'. rewrite decide_True by done.
    simpl. unfold stock_pair_of at 1. unfold mbind, outcome_bind.
    destruct (seller.stock_of w) as [q|e]; [|done].
    destruct (remove_first_elem _ _ Hin') as [st1 Hrm]. rewrite Hrm.
    destruct (remove_first_NoDup _ _ _ Hst Hrm) as (Hst1 & _ & ->).
    specialize (IH _ Hst1 Hws). rewrite known_records_remove in IH by done.
    rewrite <- IH.
    by destruct (matched_pass ws (filter (λ y, y ≠ code w) st)) as [[m|e] st2].
  - apply list_in_false in Hin. rewrite decide_False by done. by apply IH.
Qed.

(** X8.  When neither the catalog nor the inventory codes hold a duplicate,
    [create_stocks] returns first one entry per inventory record with a
    known code, in inventory order and with that record's quantity, then one
    zero entry per identifier that no record carries, in catalog order; it
    raises exactly what the first such record with a malformed quantity
    raises.  Both variants. *)
Theorem create_stocks_in_order (ws : list (gmap string pyval)) (offers : list string) :
  NoDup offers → NoDup (code <$> ws) →
  let zeros := (λ i, (i, 0)) <$> filter (λ i, i ∉ code <$> ws) offers in
  (seller.create_stocks ws offers).1 =
    match collect stock_pair_of (known_records ws offers) with
    | Ret m => Ret (seller_entry <$> (m ++ zeros))
    | Raise e => Raise e
    end ∧
  ∀ wh date,
    (market.create_stocks ws wh date offers).1 =
      match collect stock_pair_of (known_records ws offers) with
      | Ret m => Ret (market_entry wh date <$> (m ++ zeros))
      | Raise e => Raise e
      end.
Proof.
  intros Hnd Hws zeros.
  assert ((reconcile ws offers).1 =
          match collect stock_pair_of (known_records ws offers) with
          | Ret m => Ret (m ++ zeros)
          | Raise e => Raise e
          end) as H.
  { unfold reconcile. rewrite <- matched_pass_collect by done.
    destruct (matched_pass ws offers) as [[m|e] rest] eqn:Hm; [|done].
    apply matched_pass_rest in Hm as ->; done. }
  split; [|intros wh date].
  - rewrite seller_create_stocks_reconcile. unfold map_outcome.
    destruct (reconcile ws offers) as [[p|e] rest]; simpl in *;
      destruct (collect stock_pair_of (known_records ws offers)); by simplify_eq.
  - rewrite market_create_stocks_reconcile. unfold map_outcome.
    destruct (reconcile ws offers) as [[p|e] rest]; simpl in *;
      destruct (collect stock_pair_of (known_records ws offers)); by simplify_eq.
Qed.

Lemma create_stocks_in_order_witness :
  (seller.create_stocks [scenario_record] scenario_offers).1 =
    match collect stock_pair_of (known_records [scenario_record] scenario_offers) with
    | Ret m =>
        Ret (seller_entry <$>
               (m ++ ((λ i, (i, 0)) <$>
                        filter (λ i, i ∉ code <$> [scenario_record]) scenario_offers)))
    | Raise e => Raise e
    end.
Proof.
  refine (proj1 (create_stocks_in_order [scenario_record] scenario_offers _ _)).
  - apply (bool_decide_unpack _). vm_compute. exact I.
  - apply (bool_decide_unpack _). vm_compute. exact I.
Defined.

(** * Price reconciliation, further *)

Lemma collect_app {A B} (f : A → outcome B) l1 l2 :
  collect f (l1 ++ l2) =
  (r1 ← collect f l1; r2 ← collect f l2; Ret (r1 ++ r2)).
Proof.
  induction l1 as [|x l1 IH]; simpl.
  - unfold mbind, outcome_bind. by destruct (collect f l2).
  - destruct (f x) as [b|e]; [|done]. rewrite IH.
    unfold mbind, outcome_bind.
    destruct (collect f l1); [|done]. by destruct (collect f l2).
Qed.

Lemma known_records_app ws1 ws2 offers :
  known_records (ws1 ++ ws2) offers = known_records ws1 offers ++ known_records ws2 offers.
Proof. apply filter_app. Qed.

(** X9.  [create_prices] treats the inventory record by record: on two
    inventories put end to end it returns the updates of the first followed
    by those of the second, and raises what the first of them to fail
    raises.  Both variants. *)
Theorem create_prices_app (ws1 ws2 : list (gmap string pyval)) (offers : list string) :
  (seller.create_prices (ws1 ++ ws2) offers).1 =
    (p1 ← (seller.create_prices ws1 offers).1;
     p2 ← (seller.create_prices ws2 offers).1; Ret (p1 ++ p2)) ∧
  (market.create_prices (ws1 ++ ws2) offers).1 =
    (p1 ← (market.create_prices ws1 offers).1;
     p2 ← (market.create_prices ws2 offers).1; Ret (p1 ++ p2)).
Proof.
  rewrite !seller_create_prices_collect, !market_create_prices_collect. simpl.
  by rewrite known_records_app, !collect_app.
Qed.

(** X10.  [create_prices] depends on the list of identifiers only through
    membership: two lists with the same elements, in any order and with any
    repetitions, give the same result.  Both variants. *)
Theorem create_prices_membership (ws : list (gmap string pyval))
    (offers offers' : list string) :
  (∀ i, i ∈ offers ↔ i ∈ offers') →
  (seller.create_prices ws offers).1 = (seller.create_prices ws offers').1 ∧
  (market.create_prices ws offers).1 = (market.create_prices ws offers').1.
Proof.
  intros H. rewrite !seller_create_prices_collect, !market_create_prices_collect. simpl.
  assert (known_records ws offers = known_records ws offers') as ->; [|done].
  apply list_filter_iff. intros w. apply H.
Qed.

Lemma create_prices_membership_witness :
  (seller.create_prices [scenario_record] ["A"; "B"]).1 =
  (seller.create_prices [scenario_record] ["B"; "A"; "A"]).1.
Proof.
  refine (proj1 (create_prices_membership [scenario_record] ["A"; "B"] ["B"; "A"; "A"] _)).
  intros i. rewrite !elem_of_cons, !elem_of_nil. tauto.
Defined.

Lemma digit_value_nonneg c : is_0_9 c = true → 0 ≤ digit_value c.
Proof.
  unfold is_0_9, digit_value. intros [H _]%andb_true_iff. apply N.leb_le in H. lia.
Qed.

Lemma int_digits_nonneg l acc b z :
  0 ≤ acc → int_digits l acc b = Some z → 0 ≤ z.
Proof.
  revert acc b. induction l as [|c l IH]; intros acc b Hacc H; simpl in H.
  - destruct b; by simplify_eq.
  - destruct (is_0_9 c) eqn:Hc.
    + eapply IH; [|done]. pose proof (digit_value_nonneg c Hc). lia.
    + case_bool_decide; [|done]. destruct b; [|done]. by eapply IH.
Qed.

Lemma int_price_conversion_nonneg cell v :
  int (PStr (seller.price_conversion cell)) = Ret v → 0 ≤ v.
Proof.
  unfold int, int_literal. unfold seller.price_conversion.
  set (t := hd EmptyString (split cell ".")).
  pose proof (re_sub_not_0_9_digits t) as Hd.
  rewrite strip_digits by done.
  destruct (list_ascii_of_string (re_sub_not_0_9 t)) as [|c l]; [done|].
  apply Forall_cons in Hd as [Hc _].
  rewrite !bool_decide_eq_false_2 by (by intros ->).
  destruct (int_digits (c :: l) 0 false) as [z|] eqn:Hz; [|done].
  intros [= <-]. by eapply int_digits_nonneg.
Qed.

(** X11.  Every update that [create_prices] returns is for an identifier of
    the list that is the code of an inventory record.  In the Ozon variant
    its price is a string of ASCII digits and the other fields are the
    constants "UNKNOWN", "RUB" and "0"; in the Yandex Market variant its
    value is not negative and its currency is "RUR". *)
Theorem create_prices_entries (ws : list (gmap string pyval)) (offers : list string) :
  (∀ prices, (seller.create_prices ws offers).1 = Ret prices →
     Forall (λ p,
       seller.price_offer_id p ∈ offers ∧ seller.price_offer_id p ∈ code <$> ws ∧
       seller.auto_action_enabled p = "UNKNOWN" ∧ seller.currency_code p = "RUB" ∧
       seller.old_price p = "0" ∧
       Forall (λ c, is_0_9 c = true) (list_ascii_of_string (seller.price p))) prices) ∧
  (∀ prices, (market.create_prices ws offers).1 = Ret prices →
     Forall (λ p,
       market.id p ∈ offers ∧ market.id p ∈ code <$> ws ∧
       0 ≤ market.value (market.price p) ∧
       market.currencyId (market.price p) = "RUR") prices).
Proof.
  rewrite seller_create_prices_collect, market_create_prices_collect. simpl.
  split; intros prices Hp%collect_Ret; apply Forall_forall; intros p Hin;
    apply list_elem_of_lookup in Hin as [i Hi];
    destruct (Forall2_lookup_r _ _ _ _ _ Hp Hi) as (w & Hw & Hwp);
    apply list_elem_of_lookup_2 in Hw; apply list_elem_of_filter in Hw as [Hknown Hw].
  - unfold seller_price_of, mbind, outcome_bind in Hwp.
    destruct (seller.expect_str (dict_get w "Цена")) as [cell|]; simplify_eq/=.
    split_and!; try done; [by apply list_elem_of_fmap_2|].
    unfold seller.price_conversion. apply re_sub_not_0_9_digits.
  - unfold market_price_of, mbind, outcome_bind in Hwp.
    destruct (seller.expect_str (dict_get w "Цена")) as [cell|]; [|done].
    destruct (int (PStr (seller.price_conversion cell))) as [v|] eqn:Hv; simplify_eq/=.
    split_and!; try done; [by apply list_elem_of_fmap_2|].
    by eapply int_price_conversion_nonneg.
Qed.

Lemma create_prices_entries_witness :
  Forall (λ p,
       market.id p ∈ scenario_offers ∧ market.id p ∈ code <$> [scenario_record] ∧
       0 ≤ market.value (market.price p) ∧
       market.currencyId (market.price p) = "RUR")
    [ {| market.id := "A";
         market.price := {| market.value := 100; market.currencyId := "RUR" |} |} ].
Proof.
  apply (proj2 (create_prices_entries [scenario_record] scenario_offers)).
  vm_compute. reflexivity.
Defined.

(** * Runs of the entry points *)

(** A loop that pushes every batch to a log *)
Lemma for_each_log {E B} (event : B → E) (bs : list B) (log : list E) :
  for_each bs (λ b (_ : unit) (log : list E), (Ret tt, log ++ [event b])) tt log
  = (Ret tt, log ++ (event <$> bs)).
Proof.
  revert log. induction bs as [|b bs IH]; intros log; simpl.
  - by rewrite app_nil_r.
  - unfold mbind, SE_bind. rewrite IH. by rewrite <- app_assoc.
Qed.

Lemma divide_batches {A} (lst : list A) (n : Z) :
  0 < n →
  ∃ chunks, seller.divide lst n = Ret chunks ∧ concat chunks = lst ∧
    Forall (λ c, 0 < Z.of_nat (length c) ≤ n) chunks.
Proof.
  intros Hn. eexists. split; [by apply divide_closed_form|].
  pose proof (range_length_bounds (Z.of_nat (length lst)) n Hn ltac:(lia)) as (Hc0 & Hc1 & Hc2).
  split.
  - apply concat_chunks. lia.
  - apply Forall_fmap, Forall_forall. intros k Hk%elem_of_seq. simpl.
    rewrite length_take, length_drop. nia.
Qed.

(** X12.  With a duplicate-free catalog, quantities that parse and pushes
    that succeed, a run of [seller.main] sends stock batches and nothing
    else: the batches hold between 1 and 100 updates each and, taken
    together, exactly one update per catalog identifier. *)
Theorem seller_main_sends_catalog (catalog : list string)
    (inventory : list (gmap string pyval)) stocks rest :
  NoDup catalog →
  seller.create_stocks inventory catalog = (Ret stocks, rest) →
  ∃ batches,
    seller.main (seller_run catalog inventory) [] = (Ret tt, SellerStocks <$> batches) ∧
    Forall (λ b, 0 < Z.of_nat (length b) ≤ 100) batches ∧
    seller.offer_id <$> concat batches ≡ₚ catalog.
Proof.
  intros Hnd Hcs.
  destruct (divide_batches stocks 100 ltac:(lia)) as (batches & Hdiv & Hcat & Hlen).
  exists batches. split_and!; [|done|].
  - rewrite (seller_main_handles _ [] "secret" "secret") by done.
    unfold seller.main_try, mbind, SE_bind, lift, seller.call_on.
    cbn [seller.get_offer_ids seller.download_stock seller.update_stocks
         seller.update_price seller_run].
    rewrite Hcs, Hdiv.
    rewrite (for_each_log SellerStocks batches []).
    pose proof Hcs as Hrest. rewrite seller_create_stocks_reconcile in Hrest.
    unfold reconcile, map_outcome in Hrest.
    destruct (matched_pass inventory catalog) as [[m|e] st'] eqn:Hm; simplify_eq.
    apply matched_pass_rest in Hm as ->; [|done].
    rewrite seller_create_prices_collect, known_records_unmatched. done.
  - rewrite seller_create_stocks_reconcile in Hcs.
    unfold map_outcome in Hcs.
    destruct (reconcile inventory catalog) as [[pairs|e] st'] eqn:Hr; simplify_eq.
    destruct (reconcile_exactly_once _ _ _ _ Hnd Hr) as [Hp _].
    match goal with H : _ = concat batches |- _ => rewrite <- H end.
    rewrite <- list_fmap_compose.
    by rewrite (list_fmap_ext _ fst pairs) by (by intros ? [] ?).
Qed.

Lemma seller_main_sends_catalog_witness :
  ∃ batches,
    seller.main (seller_run scenario_offers [scenario_record]) []
      = (Ret tt, SellerStocks <$> batches) ∧
    Forall (λ b, 0 < Z.of_nat (length b) ≤ 100) batches ∧
    seller.offer_id <$> concat batches ≡ₚ scenario_offers.
Proof.
  refine (seller_main_sends_catalog scenario_offers [scenario_record]
            [ {| seller.offer_id := "A"; seller.stock := 100 |};
              {| seller.offer_id := "B"; seller.stock := 0 |};
              {| seller.offer_id := "C"; seller.stock := 0 |} ] ["B"; "C"] _ _).
  - apply (bool_decide_unpack _). vm_compute. exact I.
  - vm_compute. reflexivity.
Defined.

(** X13.  When [create_stocks] raises in [seller.main], for instance on a
    malformed quantity of a known record, the run ends there: one line is
    printed and neither [update_stocks] nor [update_price] is called, so no
    identifier is zeroed either. *)
Theorem seller_main_aborts_on_bad_inventory {World} (c : seller.Collaborators World)
    w token id ids w1 inventory w2 e rest :
  seller.env_str c "SELLER_TOKEN" = Ret token →
  seller.env_str c "CLIENT_ID" = Ret id →
  seller.get_offer_ids c id token w = (Ret ids, w1) →
  seller.download_stock c w1 = (Ret inventory, w2) →
  seller.create_stocks inventory ids = (Raise e, rest) →
  seller.main c w = (Ret tt, seller.print c (seller.main_except e) w2).
Proof.
  intros Ht Hi Hget Hdl Hcs. rewrite (seller_main_handles c w token id Ht Hi).
  unfold seller.main_try, mbind, SE_bind, seller.call_on. by rewrite Hget, Hdl, Hcs.
Qed.

Lemma seller_main_aborts_on_bad_inventory_witness :
  seller.main
    (seller_run ["A"; "B"] [ {[ "Код" := PStr "A"; "Количество" := PStr "много" ]} ]) []
  = (Ret tt, [SellerPrinted [seller.Exc ValueError; seller.Text "ERROR_2"]]).
Proof.
  refine (seller_main_aborts_on_bad_inventory
            (seller_run ["A"; "B"] [ {[ "Код" := PStr "A"; "Количество" := PStr "много" ]} ])
            [] "secret" "secret" ["A"; "B"] []
            [ {[ "Код" := PStr "A"; "Количество" := PStr "много" ]} ] []
            ValueError ["A"; "B"] _ _ _ _ _); vm_compute; reflexivity.
Defined.

Lemma for_each_failing_push catalog inventory k e id token
    (bs : list (list seller.StockUpdate)) (sent : list (list seller.StockUpdate)) :
  (length sent ≤ k)%nat → (k < length sent + length bs)%nat →
  for_each bs
    (λ b (_ : unit), seller.update_stocks (seller_failing_push catalog inventory k e) b id token)
    tt (SellerStocks <$> sent)
  = (Raise e, SellerStocks <$> (sent ++ take (k - length sent) bs)).
Proof.
  revert sent. induction bs as [|b bs IH]; intros sent Hle Hlt; simpl in *; [lia|].
  unfold mbind, SE_bind. cbn [seller.update_stocks seller_failing_push].
  rewrite length_fmap. case_bool_decide as Hk.
  - subst k. rewrite Nat.sub_diag. simpl. by rewrite app_nil_r.
  - replace ((SellerStocks <$> sent) ++ [SellerStocks b])
      with (SellerStocks <$> (sent ++ [b])) by by rewrite fmap_app.
    rewrite IH by (rewrite length_app; simpl; lia).
    rewrite length_app. simpl.
    replace (k - length sent)%nat with (S (k - (length sent + 1)))%nat by lia.
    simpl. by rewrite <- app_assoc.
Qed.

(** X14.  When the push of stock batch number [k] (counting from 0) raises,
    [seller.main] has sent the [k] batches before it and sends nothing more:
    the later batches and the whole price pass are skipped, one line is
    printed, and what was sent stays sent. *)
Theorem seller_main_stops_at_failed_push (catalog : list string)
    (inventory : list (gmap string pyval)) (k : nat) (e : exn) stocks rest batches :
  seller.create_stocks inventory catalog = (Ret stocks, rest) →
  seller.divide stocks 100 = Ret batches →
  (k < length batches)%nat →
  seller.main (seller_failing_push catalog inventory k e) []
  = (Ret tt, (SellerStocks <$> take k batches) ++ [SellerPrinted (seller.main_except e)]).
Proof.
  intros Hcs Hdiv Hk.
  rewrite (seller_main_handles _ [] "secret" "secret") by done.
  unfold seller.main_try, mbind at 1 2 3 4, SE_bind at 1 2 3 4, lift, seller.call_on.
  cbn [seller.get_offer_ids seller.download_stock seller_failing_push].
  rewrite Hcs, Hdiv.
  unfold mbind, SE_bind.
  pose proof (for_each_failing_push catalog inventory k e "secret" "secret" batches []) as H.
  change (SellerStocks <$> []) with (@nil seller_event) in H.
  cbn [length app] in H. rewrite H by lia. rewrite Nat.sub_0_r.
  cbn [seller.print seller_failing_push]. done.
Qed.

Lemma seller_main_stops_at_failed_push_witness :
  seller.main (seller_failing_push scenario_offers [scenario_record] 0 ReadTimeout) []
  = (Ret tt, (SellerStocks <$> take 0
                [[ {| seller.offer_id := "A"; seller.stock := 100 |};
                   {| seller.offer_id := "B"; seller.stock := 0 |};
                   {| seller.offer_id := "C"; seller.stock := 0 |} ]])
             ++ [SellerPrinted (seller.main_except ReadTimeout)]).
Proof.
  refine (seller_main_stops_at_failed_push scenario_offers [scenario_record] 0 ReadTimeout
            [ {| seller.offer_id := "A"; seller.stock := 100 |};
              {| seller.offer_id := "B"; seller.stock := 0 |};
              {| seller.offer_id := "C"; seller.stock := 0 |} ] ["B"; "C"] _ _ _ _).
  - vm_compute. reflexivity.
  - vm_compute. reflexivity.
  - simpl. lia.
Defined.

(** ** The upload entry points *)

(** X15.  [upload_prices] reads a catalog of its own, so every price that
    [create_prices] builds is sent: once, in order, in batches of at most
    1000 (Ozon) or 500 (Yandex Market) updates, and the list sent is the
    list returned. *)
Theorem upload_prices_sends_all (catalog : list string)
    (inventory ws : list (gmap string pyval)) :
  (∀ prices rest id token log,
     seller.create_prices ws catalog = (Ret prices, rest) →
     ∃ batches,
       seller.upload_prices (seller_run catalog inventory) ws id token log
         = (Ret prices, log ++ (SellerPrices <$> batches)) ∧
       concat batches = prices ∧
       Forall (λ b, 0 < Z.of_nat (length b) ≤ 1000) batches) ∧
  (∀ prices rest campaign_id token log,
     market.create_prices ws catalog = (Ret prices, rest) →
     ∃ batches,
       market.upload_prices (market_run catalog inventory) ws campaign_id token log
         = (Ret prices, log ++ (MarketPrices campaign_id <$> batches)) ∧
       concat batches = prices ∧
       Forall (λ b, 0 < Z.of_nat (length b) ≤ 500) batches).
Proof.
  split.
  - intros prices rest id token log Hcp.
    destruct (divide_batches prices 1000 ltac:(lia)) as (batches & Hdiv & Hcat & Hlen).
    exists batches. split_and!; [|done..].
    unfold seller.upload_prices, mbind, SE_bind, lift, seller.call_on.
    cbn [seller.get_offer_ids seller.update_price seller_run].
    rewrite Hcp, Hdiv. by rewrite (for_each_log SellerPrices batches log).
  - intros prices rest campaign_id token log Hcp.
    destruct (divide_batches prices 500 ltac:(lia)) as (batches & Hdiv & Hcat & Hlen).
    exists batches. split_and!; [|done..].
    unfold market.upload_prices, mbind, SE_bind, lift, seller.call_on.
    cbn [market.get_offer_ids market.update_price market_run].
    rewrite Hcp, Hdiv. by rewrite (for_each_log (MarketPrices campaign_id) batches log).
Qed.

Lemma upload_prices_sends_all_witness :
  ∃ batches,
    seller.upload_prices (seller_run scenario_offers []) [scenario_record] "id" "token" []
      = (Ret [ {| seller.auto_action_enabled := "UNKNOWN"; seller.currency_code := "RUB";
                  seller.price_offer_id := "A"; seller.old_price := "0";
                  seller.price := "100" |} ],
         [] ++ (SellerPrices <$> batches)) ∧
    concat batches
      = [ {| seller.auto_action_enabled := "UNKNOWN"; seller.currency_code := "RUB";
             seller.price_offer_id := "A"; seller.old_price := "0";
             seller.price := "100" |} ] ∧
    Forall (λ b, 0 < Z.of_nat (length b) ≤ 1000) batches.
Proof.
  refine (proj1 (upload_prices_sends_all scenario_offers [] [scenario_record])
            _ scenario_offers "id" "token" [] _).
  vm_compute. reflexivity.
Defined.

Lemma reconcile_entries ws st pairs rest :
  reconcile ws st = (Ret pairs, rest) →
  ∀ i q, (i, q) ∈ pairs → q ≠ 0 → i ∈ code <$> ws.
Proof.
  unfold reconcile. intros H i q Hin Hq.
  destruct (matched_pass ws st) as [[m|e] st'] eqn:Hm; simplify_eq.
  apply elem_of_app in Hin as [Hin|Hin].
  - eapply matched_pass_codes; [done|]. by apply (list_elem_of_fmap_2 fst) in Hin.
  - apply list_elem_of_fmap in Hin as (? & ? & ?). simplify_eq.
Qed.

(** X16.  What [upload_stocks] of [seller.py] returns: [stocks] is what
    [create_stocks] builds from the catalog just read, and [not_empty] is
    exactly the list of the updates of [stocks] with a quantity other than
    0, in the order of [stocks] and with their repetitions; each of them is
    for an identifier that an inventory record carries, so a zero-filled
    identifier is never among them. *)
Theorem seller_upload_stocks_not_empty {World} (c : seller.Collaborators World)
    (ws : list (gmap string pyval)) id token w not_empty stocks w' :
  seller_upload_stocks c ws id token w = (Ret (not_empty, stocks), w') →
  (∃ ids w1 rest, seller.get_offer_ids c id token w = (Ret ids, w1) ∧
                  seller.create_stocks ws ids = (Ret stocks, rest)) ∧
  not_empty = filter (λ stock, seller.stock stock ≠ 0) stocks ∧
  (∀ s, s ∈ not_empty → seller.offer_id s ∈ code <$> ws).
Proof.
  unfold seller_upload_stocks, mbind, SE_bind, lift, seller.call_on, mret, SE_ret.
  destruct (seller.get_offer_ids c id token w) as [[ids|e] w1]; [|done].
  pose proof (seller_create_stocks_reconcile ws ids) as Hcs.
  destruct (seller.create_stocks ws ids) as [[stocks0|e] rest0] eqn:Hcs0; [|done].
  destruct (reconcile ws ids) as [[pairs|e] rest] eqn:Hr; [|done].
  cbn [map_outcome] in Hcs. injection Hcs as -> ->.
  destruct (seller.divide (seller_entry <$> pairs) 100) as [batches|e]; [|done].
  destruct (for_each batches _ tt w1) as [[[]|e] w2]; [|done].
  intros H. injection H as <- <- <-. split_and!.
  - by exists ids, w1, rest.
  - done.
  - intros s [Hq Hs]%list_elem_of_filter.
    apply list_elem_of_fmap in Hs as ([i q] & -> & Hin).
    by eapply reconcile_entries.
Qed.

Lemma seller_upload_stocks_not_empty_witness :
  [ {| seller.offer_id := "A"; seller.stock := 100 |} ]
  = filter (λ stock, seller.stock stock ≠ 0)
      [ {| seller.offer_id := "A"; seller.stock := 100 |};
        {| seller.offer_id := "B"; seller.stock := 0 |};
        {| seller.offer_id := "C"; seller.stock := 0 |} ].
Proof.
  refine (proj1 (proj2 (seller_upload_stocks_not_empty (seller_run scenario_offers [])
                   [scenario_record] "id" "token" [] _ _
                   [SellerStocks [ {| seller.offer_id := "A"; seller.stock := 100 |};
                                   {| seller.offer_id := "B"; seller.stock := 0 |};
                                   {| seller.offer_id := "C"; seller.stock := 0 |} ]] _))).
  vm_compute. reflexivity.
Defined.

Lemma filter_raising_market_entry wh date (pairs : list (string * Z)) :
  filter_raising market_has_stock (market_entry wh date <$> pairs)
  = Ret (market_entry wh date <$> filter (λ p, p.2 ≠ 0) pairs).
Proof.
  induction pairs as [|[i q] pairs IH]; [done|].
  rewrite fmap_cons. cbn [filter_raising]. rewrite IH.
  unfold market_has_stock, market_entry at 1.
  cbn [market.items index0 mbind outcome_bind market.count snd].
  rewrite filter_cons. cbn [snd]. case_bool_decide; by destruct (decide _).
Qed.

Lemma filter_market_entry wh date (pairs : list (string * Z)) :
  filter (λ s, market.count <$> market.items s ≠ [0]) (market_entry wh date <$> pairs)
  = market_entry wh date <$> filter (λ p, p.2 ≠ 0) pairs.
Proof.
  induction pairs as [|[i q] pairs IH]; [done|].
  rewrite fmap_cons, !filter_cons, IH.
  cbn [snd market_entry market.items fmap list_fmap market.count].
  destruct (decide (q ≠ 0)) as [Hq|Hq].
  - rewrite decide_True; [done|]. intros [=]. done.
  - rewrite decide_False; [done|]. intros Hn. apply Hq. intros ->. by apply Hn.
Qed.

(** X17.  In [upload_stocks] of [market.py] every entry of [stocks] has
    exactly one item, so the filter [items[0].count != 0] never raises:
    when [create_stocks] returns, the stocks are sent in batches of at most
    2000 and [not_empty] holds the entries of non-zero count, in the order
    of [stocks], each for an identifier that an inventory record carries. *)
Theorem market_upload_stocks_not_empty (catalog : list string)
    (inventory ws : list (gmap string pyval)) campaign_id token warehouse_id log stocks rest :
  market.create_stocks ws warehouse_id "2024-01-01T00:00:00Z" catalog = (Ret stocks, rest) →
  ∃ batches not_empty,
    market_upload_stocks (market_run catalog inventory) ws campaign_id token warehouse_id log
      = (Ret (not_empty, stocks), log ++ (MarketStocks campaign_id <$> batches)) ∧
    concat batches = stocks ∧
    Forall (λ b, 0 < Z.of_nat (length b) ≤ 2000) batches ∧
    not_empty = filter (λ s, market.count <$> market.items s ≠ [0]) stocks ∧
    (∀ s, s ∈ not_empty → market.sku s ∈ code <$> ws).
Proof.
  intros Hcs.
  pose proof Hcs as Hr. rewrite market_create_stocks_reconcile in Hr.
  destruct (reconcile ws catalog) as [[pairs|e] rest'] eqn:Hrec; [|done].
  cbn [map_outcome] in Hr. injection Hr as <- ->.
  destruct (divide_batches (market_entry warehouse_id "2024-01-01T00:00:00Z" <$> pairs)
              2000 ltac:(lia)) as (batches & Hdiv & Hcat & Hlen).
  exists batches,
    (market_entry warehouse_id "2024-01-01T00:00:00Z" <$> filter (λ p, p.2 ≠ 0) pairs).
  split_and!; [|done|done|..].
  - unfold market_upload_stocks, mbind, SE_bind, lift, market.call_create_stocks, seller.call_on.
    cbn [market.get_offer_ids market.update_stocks market.utcnow market_run].
    rewrite Hcs, Hdiv. rewrite (for_each_log (MarketStocks campaign_id) batches log).
    by rewrite filter_raising_market_entry.
  - by rewrite filter_market_entry.
  - intros s ([i q] & -> & [Hq Hin]%list_elem_of_filter)%list_elem_of_fmap.
    by eapply reconcile_entries.
Qed.

Lemma market_upload_stocks_not_empty_witness :
  ∃ batches not_empty,
    market_upload_stocks (market_run scenario_offers []) [scenario_record] "FBS" "token" "W" []
      = (Ret (not_empty, market_entry "W" "2024-01-01T00:00:00Z" <$> [("A", 100); ("B", 0); ("C", 0)]),
         [] ++ (MarketStocks "FBS" <$> batches)) ∧
    concat batches = market_entry "W" "2024-01-01T00:00:00Z" <$> [("A", 100); ("B", 0); ("C", 0)] ∧
    Forall (λ b, 0 < Z.of_nat (length b) ≤ 2000) batches ∧
    not_empty = filter (λ s, market.count <$> market.items s ≠ [0])
                  (market_entry "W" "2024-01-01T00:00:00Z" <$> [("A", 100); ("B", 0); ("C", 0)]) ∧
    (∀ s, s ∈ not_empty → market.sku s ∈ code <$> [scenario_record]).
Proof.
  refine (market_upload_stocks_not_empty scenario_offers [] [scenario_record] "FBS" "token" "W" []
            _ ["B"; "C"] _).
  vm_compute. reflexivity.
Defined.

(** ** Runs of [market.main] *)

(** X18.  A run of [market.py] as shipped sends nothing: the file is
    rejected before its first statement.  With line 50 moved to column 4
    the file loads, and then, with stock passes that return and pushes that
    succeed, a run sends the stocks of the FBS campaign, then those of the
    DBS campaign, in batches of at most 2000, and nothing else.  The DBS
    pass reads the catalog again, so it is not affected by what the FBS
    pass removed from its list; no price is sent. *)
Theorem market_main_sends_both_campaigns (catalog : list string)
    (inventory : list (gmap string pyval)) fbs rest_fbs dbs rest_dbs :
  market.create_stocks inventory "WAREHOUSE_FBS_ID" "2024-01-01T00:00:00Z" catalog
    = (Ret fbs, rest_fbs) →
  market.create_stocks inventory "WAREHOUSE_DBS_ID" "2024-01-01T00:00:00Z" catalog
    = (Ret dbs, rest_dbs) →
  market_script market_py_lines (market_run catalog inventory) []
    = (Raise IndentationError, []) ∧
  ∃ batches_fbs batches_dbs,
    market_script (reindent 50 4 market_py_lines) (market_run catalog inventory) []
      = (Ret tt, (MarketStocks "FBS_ID" <$> batches_fbs)
                 ++ (MarketStocks "DBS_ID" <$> batches_dbs)) ∧
    concat batches_fbs = fbs ∧ concat batches_dbs = dbs ∧
    Forall (λ b, 0 < Z.of_nat (length b) ≤ 2000) (batches_fbs ++ batches_dbs).
Proof.
  intros Hf Hd. split; [apply market_script_shipped|].
  destruct (divide_batches fbs 2000 ltac:(lia)) as (bf & Hdivf & Hcatf & Hlenf).
  destruct (divide_batches dbs 2000 ltac:(lia)) as (bd & Hdivd & Hcatd & Hlend).
  exists bf, bd. split_and!; [|done|done|by apply Forall_app].
  rewrite market_script_reindented.
  rewrite (market_main_handles _ [] inventory [] "MARKET_TOKEN" "FBS_ID" "DBS_ID"
             "WAREHOUSE_FBS_ID" "WAREHOUSE_DBS_ID") by done.
  unfold market.main_try, mbind, SE_bind, lift, market.call_create_stocks, seller.call_on,
    market.call_async, mret, SE_ret.
  cbn [market.get_offer_ids market.update_stocks market.utcnow market_run].
  rewrite Hf, Hdivf. rewrite (for_each_log (MarketStocks "FBS_ID") bf []).
  rewrite Hd, Hdivd. rewrite (for_each_log (MarketStocks "DBS_ID") bd). done.
Qed.

Lemma market_main_sends_both_campaigns_witness :
  market_script market_py_lines (market_run scenario_offers [scenario_record]) []
    = (Raise IndentationError, []) ∧
  ∃ batches_fbs batches_dbs,
    market_script (reindent 50 4 market_py_lines)
        (market_run scenario_offers [scenario_record]) []
      = (Ret tt, (MarketStocks "FBS_ID" <$> batches_fbs)
                 ++ (MarketStocks "DBS_ID" <$> batches_dbs)) ∧
    concat batches_fbs
      = market_entry "WAREHOUSE_FBS_ID" "2024-01-01T00:00:00Z"
          <$> [("A", 100); ("B", 0); ("C", 0)] ∧
    concat batches_dbs
      = market_entry "WAREHOUSE_DBS_ID" "2024-01-01T00:00:00Z"
          <$> [("A", 100); ("B", 0); ("C", 0)] ∧
    Forall (λ b, 0 < Z.of_nat (length b) ≤ 2000) (batches_fbs ++ batches_dbs).
Proof.
  refine (market_main_sends_both_campaigns scenario_offers [scenario_record]
            _ ["B"; "C"] _ ["B"; "C"] _ _); vm_compute; reflexivity.
Defined.

(** X19.  A run of [market.py] as shipped prints nothing and touches no
    campaign: the file is rejected before its first statement.  With line
    50 moved to column 4 the file loads, and then the two campaigns share
    one [try] block in [main]: when the stock pass of the FBS campaign
    raises, one line is printed and the DBS campaign is not touched,
    neither its catalog read nor any push. *)
Theorem market_main_fbs_failure_skips_dbs {World} (c : market.Collaborators World)
    w token fbs dbs wfbs wdbs ws w1 ids w2 date w3 e rest :
  market.env_str c "MARKET_TOKEN" = Ret token →
  market.env_str c "FBS_ID" = Ret fbs →
  market.env_str c "DBS_ID" = Ret dbs →
  market.env_str c "WAREHOUSE_FBS_ID" = Ret wfbs →
  market.env_str c "WAREHOUSE_DBS_ID" = Ret wdbs →
  market.download_stock c w = (Ret ws, w1) →
  market.get_offer_ids c fbs token w1 = (Ret ids, w2) →
  market.utcnow c w2 = (date, w3) →
  market.create_stocks ws wfbs date ids = (Raise e, rest) →
  market_script market_py_lines c w = (Raise IndentationError, w) ∧
  market_script (reindent 50 4 market_py_lines) c w
    = (Ret tt, market.print c (market.main_except e) w3).
Proof.
  intros H1 H2 H3 H4 H5 Hdl Hget Hnow Hcs. split; [apply market_script_shipped|].
  rewrite market_script_reindented.
  rewrite (market_main_handles c w ws w1 token fbs dbs wfbs wdbs) by done.
  unfold market.main_try, mbind, SE_bind, market.call_create_stocks, seller.call_on.
  by rewrite Hget, Hnow, Hcs.
Qed.

Lemma market_main_fbs_failure_skips_dbs_witness :
  market_script market_py_lines
    (market_run ["A"; "B"] [ {[ "Код" := PStr "A"; "Количество" := PStr "много" ]} ]) []
  = (Raise IndentationError, []) ∧
  market_script (reindent 50 4 market_py_lines)
    (market_run ["A"; "B"] [ {[ "Код" := PStr "A"; "Количество" := PStr "много" ]} ]) []
  = (Ret tt, [MarketPrinted [seller.Exc ValueError; seller.Text "ERROR_2"]]).
Proof.
  refine (market_main_fbs_failure_skips_dbs
            (market_run ["A"; "B"] [ {[ "Код" := PStr "A"; "Количество" := PStr "много" ]} ])
            [] "MARKET_TOKEN" "FBS_ID" "DBS_ID" "WAREHOUSE_FBS_ID" "WAREHOUSE_DBS_ID"
            [ {[ "Код" := PStr "A"; "Количество" := PStr "много" ]} ] []
            ["A"; "B"] [] "2024-01-01T00:00:00Z" [] ValueError ["A"; "B"]
            _ _ _ _ _ _ _ _ _); vm_compute; reflexivity.
Defined.

(** ** Reading the catalog page by page *)

Lemma products_S items n k : products items n (S k) = items n ++ products items (S n) k.
Proof. done. Qed.

Lemma seller_product_pages_stream script items total last_id id token :
  ∀ d n lid pl log fuel,
    (∀ j, (j ≤ d)%nat → seller_page (script (n + j)%nat) (items (n + j)%nat)
                          (total (n + j)%nat) (last_id (n + j)%nat)) →
    length log = n →
    (∀ j, (j < d)%nat →
       eq_int (total (n + j)%nat)
         (Z.of_nat (length (pl ++ products items n (S j)))) = false) →
    eq_int (total (n + d)%nat) (Z.of_nat (length (pl ++ products items n (S d)))) = true →
    (d < fuel)%nat →
    seller_product_pages (stream_http script) fuel lid pl id token log
    = Some (Ret (pl ++ products items n (S d)),
            log ++ ((λ l, seller_product_list_request l id token)
                      <$> (lid :: (last_id <$> seq n d)))).
Proof.
  induction d as [|d IH]; intros n lid pl log fuel Hpage Hlen Hne Heq Hfuel;
    (destruct fuel as [|fuel]; [lia|]);
    destruct (Hpage 0%nat ltac:(lia)) as (dd & Hres & Hitems & Htotal & Hlast);
    rewrite Nat.add_0_r in Hres, Hitems, Htotal, Hlast;
    cbn [seller_product_pages]; unfold seller_get_product_list, stream_http, mbind, SE_bind, lift;
    rewrite Hlen, Hres; cbn [json_get outcome_bind]; rewrite Hitems, Htotal, Hlast;
    cbn [iterate].
  - rewrite Nat.add_0_r in Heq. unfold products in Heq. cbn in Heq. rewrite app_nil_r in Heq.
    rewrite Heq. unfold products. cbn. by rewrite app_nil_r.
  - pose proof (Hne 0%nat ltac:(lia)) as H0. rewrite Nat.add_0_r in H0.
    unfold products in H0. cbn in H0. rewrite app_nil_r in H0. rewrite H0.
    rewrite (IH (S n)).
    + rewrite (products_S items n (S d)), app_assoc. do 2 f_equal.
      by rewrite <- app_assoc.
    + intros j Hj. replace (S n + j)%nat with (n + S j)%nat by lia. apply Hpage. lia.
    + rewrite length_app. simpl. lia.
    + intros j Hj. replace (S n + j)%nat with (n + S j)%nat by lia.
      rewrite <- app_assoc, <- products_S. apply Hne. lia.
    + replace (S n + d)%nat with (n + S d)%nat by lia.
      by rewrite <- app_assoc, <- products_S.
    + lia.
Qed.

Lemma seller_product_pages_stream_None script items total last_id id token :
  (∀ n, seller_page (script n) (items n) (total n) (last_id n)) →
  ∀ fuel n lid pl log,
    length log = n →
    (∀ j, eq_int (total (n + j)%nat)
            (Z.of_nat (length (pl ++ products items n (S j)))) = false) →
    seller_product_pages (stream_http script) fuel lid pl id token log = None.
Proof.
  intros Hpage. induction fuel as [|fuel IH]; intros n lid pl log Hlen Hne; [done|].
  destruct (Hpage n) as (dd & Hres & Hitems & Htotal & Hlast).
  cbn [seller_product_pages]. unfold seller_get_product_list, stream_http, mbind, SE_bind, lift.
  rewrite Hlen, Hres. cbn [json_get outcome_bind]. rewrite Hitems, Htotal, Hlast.
  cbn [iterate].
  pose proof (Hne 0%nat) as H0. rewrite Nat.add_0_r in H0.
  unfold products in H0. cbn in H0. rewrite app_nil_r in H0. rewrite H0.
  apply (IH (S n)).
  - rewrite length_app. simpl. lia.
  - intros j. replace (S n + j)%nat with (n + S j)%nat by lia.
    rewrite <- app_assoc, <- products_S. apply Hne.
Qed.

(** X20.  [get_offer_ids] of [seller.py] against a server that answers
    with well-formed pages: it stops at the first page [k] whose [total]
    equals the number of products read so far, after [k + 1] requests.  The
    first request carries the empty [last_id] and each later one the
    [last_id] of the page before; the result holds the [offer_id] of every
    product of the pages read, in order. *)
Theorem seller_get_offer_ids_pages (script : nat → json) (items : nat → list json)
    (total last_id : nat → json) (k : nat) (client_id seller_token : string) :
  (∀ n, (n ≤ k)%nat → seller_page (script n) (items n) (total n) (last_id n)) →
  (∀ j, (j < k)%nat →
     eq_int (total j) (Z.of_nat (length (products items 0 (S j)))) = false) →
  eq_int (total k) (Z.of_nat (length (products items 0 (S k)))) = true →
  ∀ fuel, (k < fuel)%nat →
  seller_get_offer_ids (stream_http script) fuel client_id seller_token []
  = Some (collect (λ product, json_get product "offer_id") (products items 0 (S k)),
          (λ l, seller_product_list_request l client_id seller_token)
            <$> (JStr "" :: (last_id <$> seq 0 k))).
Proof.
  intros Hpage Hne Heq fuel Hfuel. unfold seller_get_offer_ids.
  by rewrite (seller_product_pages_stream script items total last_id _ _ k 0%nat).
Qed.

Lemma seller_get_offer_ids_pages_witness :
  seller_get_offer_ids (stream_http ozon_two_pages) 2 "id" "token" []
  = Some (Ret [JStr "A"; JStr "B"; JStr "C"],
          [seller_product_list_request (JStr "") "id" "token";
           seller_product_list_request (JStr "B") "id" "token"]).
Proof.
  refine (seller_get_offer_ids_pages ozon_two_pages
            (λ n, match n with
                  | O => [JDict [("offer_id", JStr "A")]; JDict [("offer_id", JStr "B")]]
                  | _ => [JDict [("offer_id", JStr "C")]]
                  end)
            (λ _, JInt 3)
            (λ n, match n with O => JStr "B" | _ => JStr "" end)
            1 "id" "token" _ _ _ 2%nat _).
  - intros [|[|n]] Hn; [| |lia]; eexists; split_and!; reflexivity.
  - intros [|j] Hj; [reflexivity|lia].
  - reflexivity.
  - lia.
Defined.

(** X21.  [get_offer_ids] of [seller.py] has no other exit than the test
    [total == len(product_list)]: against a server whose pages never make
    the count of products read equal to the reported total (an empty page
    for a non-empty catalog, a total that the count has overtaken), the loop
    asks for ever and never returns. *)
Theorem seller_get_offer_ids_never_returns (script : nat → json)
    (items : nat → list json) (total last_id : nat → json)
    (client_id seller_token : string) :
  (∀ n, seller_page (script n) (items n) (total n) (last_id n)) →
  (∀ j, eq_int (total j) (Z.of_nat (length (products items 0 (S j)))) = false) →
  ∀ fuel, seller_get_offer_ids (stream_http script) fuel client_id seller_token [] = None.
Proof.
  intros Hpage Hne fuel. unfold seller_get_offer_ids.
  by rewrite (seller_product_pages_stream_None script items total last_id _ _ Hpage
                fuel 0%nat).
Qed.

Lemma seller_get_offer_ids_never_returns_witness :
  seller_get_offer_ids (stream_http ozon_empty_pages) 1000 "id" "token" [] = None.
Proof.
  refine (seller_get_offer_ids_never_returns ozon_empty_pages
            (λ _, []) (λ _, JInt 3) (λ _, JStr "") "id" "token" _ _ 1000%nat).
  - intros n. eexists. split_and!; reflexivity.
  - intros j. unfold products. induction (seq 0 (S j)) as [|? ? IH]; done.
Defined.

(** X22.  [get_offer_ids] of [seller.py] does not turn a failure into an
    empty list.  An error of the first request is raised as it is; a body
    that is not a dict, or whose [result] is missing or not a dict, raises
    [AttributeError]; a result without [items] raises [TypeError]. *)
Theorem seller_get_offer_ids_bad_response {World} (http : Http World)
    (fuel : nat) (client_id seller_token : string) (w w' : World) :
  let request := seller_product_list_request (JStr "") client_id seller_token in
  let result := seller_get_offer_ids http (S fuel) client_id seller_token w in
  (∀ e, http request w = (Raise e, w') → result = Some (Raise e, w')) ∧
  (∀ body, http request w = (Ret body, w') →
     (∀ d, json_get body "result" ≠ Ret (JDict d)) →
     result = Some (Raise AttributeError, w')) ∧
  (∀ body d, http request w = (Ret body, w') →
     json_get body "result" = Ret (JDict d) → assoc "items" d = JNone →
     result = Some (Raise TypeError, w')).
Proof.
  cbn zeta. unfold seller_get_offer_ids. cbn [seller_product_pages].
  unfold seller_get_product_list, mbind, SE_bind, lift. split_and!.
  - intros e ->. done.
  - intros body -> Hbody. destruct (json_get body "result") as [[]|e] eqn:Hres; try done.
    + by destruct (Hbody d).
    + destruct body; by simplify_eq/=.
  - intros body d -> -> Hitems. cbn [json_get outcome_bind]. by rewrite Hitems.
Qed.

Lemma seller_get_offer_ids_bad_response_witness :
  seller_get_offer_ids
    (stream_http (λ _, JDict [("code", JInt 7); ("message", JStr "Api-Key is invalid")]))
    1 "id" "token" []
  = Some (Raise AttributeError, [seller_product_list_request (JStr "") "id" "token"]).
Proof.
  refine (proj1 (proj2 (seller_get_offer_ids_bad_response
                          (stream_http (λ _, JDict [("code", JInt 7);
                                                    ("message", JStr "Api-Key is invalid")]))
                          0 "id" "token" [] _)) _ _ _).
  - reflexivity.
  - intros d. discriminate.
Defined.

Lemma market_product_pages_stream script entries token cid tok :
  ∀ d n page pl log fuel,
    (∀ j, (j ≤ d)%nat →
       market_page (script (n + j)%nat) (entries (n + j)%nat) (token (n + j)%nat)) →
    length log = n →
    (∀ j, (j < d)%nat → truthy (token (n + j)%nat) = true) →
    truthy (token (n + d)%nat) = false →
    (d < fuel)%nat →
    market_product_pages (stream_http script) fuel page pl cid tok log
    = Some (Ret (pl ++ products entries n (S d)),
            log ++ ((λ p, market_product_list_request p cid tok)
                      <$> (page :: (token <$> seq n d)))).
Proof.
  induction d as [|d IH]; intros n page pl log fuel Hpage Hlen Htrue Hfalse Hfuel;
    (destruct fuel as [|fuel]; [lia|]);
    destruct (Hpage 0%nat ltac:(lia)) as (dd & pp & Hres & Hentries & Hpaging & Htoken);
    rewrite Nat.add_0_r in Hres, Hentries, Htoken;
    cbn [market_product_pages]; unfold market_get_product_list, stream_http, mbind, SE_bind, lift;
    rewrite Hlen, Hres; cbn [json_get outcome_bind]; rewrite Hentries, Hpaging;
    cbn [iterate json_get]; rewrite Htoken.
  - rewrite Nat.add_0_r in Hfalse. rewrite Hfalse. unfold products. cbn. by rewrite app_nil_r.
  - pose proof (Htrue 0%nat ltac:(lia)) as H0. rewrite Nat.add_0_r in H0. rewrite H0.
    rewrite (IH (S n)).
    + rewrite (products_S entries n (S d)), app_assoc. do 2 f_equal.
      by rewrite <- app_assoc.
    + intros j Hj. replace (S n + j)%nat with (n + S j)%nat by lia. apply Hpage. lia.
    + rewrite length_app. simpl. lia.
    + intros j Hj. replace (S n + j)%nat with (n + S j)%nat by lia. apply Htrue. lia.
    + by replace (S n + d)%nat with (n + S d)%nat by lia.
    + lia.
Qed.

Lemma market_product_pages_stream_None script entries token cid tok :
  (∀ n, market_page (script n) (entries n) (token n)) →
  (∀ n, truthy (token n) = true) →
  ∀ fuel page pl log,
    market_product_pages (stream_http script) fuel page pl cid tok log = None.
Proof.
  intros Hpage Htrue. induction fuel as [|fuel IH]; intros page pl log; [done|].
  destruct (Hpage (length log)) as (dd & pp & Hres & Hentries & Hpaging & Htoken).
  cbn [market_product_pages]. unfold market_get_product_list, stream_http, mbind, SE_bind, lift.
  rewrite Hres. cbn [json_get outcome_bind]. rewrite Hentries, Hpaging.
  cbn [iterate json_get]. rewrite Htoken, Htrue. apply IH.
Qed.

(** X23.  [get_offer_ids] of [market.py] against a server that answers with
    well-formed pages: it stops at the first page [k] whose [nextPageToken]
    is missing, null or empty, after [k + 1] requests.  The first request
    carries the empty page token and each later one the token of the page
    before; the result holds the [shopSku] of every entry of the pages read,
    in order. *)
Theorem market_get_offer_ids_pages (script : nat → json) (entries : nat → list json)
    (token : nat → json) (k : nat) (campaign_id market_token : string) :
  (∀ n, (n ≤ k)%nat → market_page (script n) (entries n) (token n)) →
  (∀ j, (j < k)%nat → truthy (token j) = true) →
  truthy (token k) = false →
  ∀ fuel, (k < fuel)%nat →
  market_get_offer_ids (stream_http script) fuel campaign_id market_token []
  = Some (collect (λ product, json_get product "offer" ≫= λ offer, json_get offer "shopSku")
            (products entries 0 (S k)),
          (λ p, market_product_list_request p campaign_id market_token)
            <$> (JStr "" :: (token <$> seq 0 k))).
Proof.
  intros Hpage Htrue Hfalse fuel Hfuel. unfold market_get_offer_ids.
  by rewrite (market_product_pages_stream script entries token _ _ k 0%nat).
Qed.

Lemma market_get_offer_ids_pages_witness :
  market_get_offer_ids (stream_http market_two_pages) 2 "42" "token" []
  = Some (Ret [JStr "A"; JStr "B"; JStr "C"],
          [market_product_list_request (JStr "") "42" "token";
           market_product_list_request (JStr "p2") "42" "token"]).
Proof.
  refine (market_get_offer_ids_pages market_two_pages
            (λ n, match n with
                  | O => [JDict [("offer", JDict [("shopSku", JStr "A")])];
                          JDict [("offer", JDict [("shopSku", JStr "B")])]]
                  | _ => [JDict [("offer", JDict [("shopSku", JStr "C")])]]
                  end)
            (λ n, match n with O => JStr "p2" | _ => JNone end)
            1 "42" "token" _ _ _ 2%nat _).
  - intros [|[|n]] Hn; [| |lia]; do 2 eexists; split_and!; reflexivity.
  - intros [|j] Hj; [reflexivity|lia].
  - reflexivity.
  - lia.
Defined.

(** X24.  [get_offer_ids] of [market.py] has no other exit than an empty
    [nextPageToken]: against a server whose every page carries a non-empty
    token the loop asks for ever and never returns. *)
Theorem market_get_offer_ids_never_returns (script : nat → json)
    (entries : nat → list json) (token : nat → json) (campaign_id market_token : string) :
  (∀ n, market_page (script n) (entries n) (token n)) →
  (∀ n, truthy (token n) = true) →
  ∀ fuel, market_get_offer_ids (stream_http script) fuel campaign_id market_token [] = None.
Proof.
  intros Hpage Htrue fuel. unfold market_get_offer_ids.
  by rewrite (market_product_pages_stream_None script entries token _ _ Hpage Htrue).
Qed.

Lemma market_get_offer_ids_never_returns_witness :
  market_get_offer_ids (stream_http market_endless_pages) 1000 "42" "token" [] = None.
Proof.
  refine (market_get_offer_ids_never_returns market_endless_pages
            (λ _, [JDict [("offer", JDict [("shopSku", JStr "A")])]])
            (λ _, JStr "again") "42" "token" _ _ 1000%nat).
  - intros n. do 2 eexists. split_and!; reflexivity.
  - intros n. reflexivity.
Defined.

(** X25.  [get_offer_ids] of [market.py] does not turn a failure into an
    empty list, and it ends the loop only through [paging].  An error of the
    first request is raised as it is; a body that is not a dict, or whose
    [result] is missing or not a dict, raises [AttributeError]; so does a
    first page whose result has entries but no [paging] object, and the
    entries it brought are not returned. *)
Theorem market_get_offer_ids_bad_response {World} (http : Http World)
    (fuel : nat) (campaign_id market_token : string) (w w' : World) :
  let request := market_product_list_request (JStr "") campaign_id market_token in
  let result := market_get_offer_ids http (S fuel) campaign_id market_token w in
  (∀ e, http request w = (Raise e, w') → result = Some (Raise e, w')) ∧
  (∀ body, http request w = (Ret body, w') →
     (∀ d, json_get body "result" ≠ Ret (JDict d)) →
     result = Some (Raise AttributeError, w')) ∧
  (∀ body d entries, http request w = (Ret body, w') →
     json_get body "result" = Ret (JDict d) →
     assoc "offerMappingEntries" d = JList entries → assoc "paging" d = JNone →
     result = Some (Raise AttributeError, w')).
Proof.
  cbn zeta. unfold market_get_offer_ids. cbn [market_product_pages].
  unfold market_get_product_list, mbind, SE_bind, lift. split_and!.
  - intros e ->. done.
  - intros body -> Hbody. destruct (json_get body "result") as [[]|e] eqn:Hres; try done.
    + by destruct (Hbody d).
    + destruct body; by simplify_eq/=.
  - intros body d entries -> -> Hentries Hpaging. cbn [json_get outcome_bind].
    by rewrite Hentries, Hpaging.
Qed.

Lemma market_get_offer_ids_bad_response_witness :
  market_get_offer_ids
    (stream_http (λ _, JDict [("result",
       JDict [("offerMappingEntries",
               JList [JDict [("offer", JDict [("shopSku", JStr "A")])]])])]))
    1 "42" "token" []
  = Some (Raise AttributeError, [market_product_list_request (JStr "") "42" "token"]).
Proof.
  refine (proj2 (proj2 (market_get_offer_ids_bad_response
                          (stream_http (λ _, JDict [("result",
                             JDict [("offerMappingEntries",
                                     JList [JDict [("offer", JDict [("shopSku", JStr "A")])]])])]))
                          0 "42" "token" [] _)) _ _ _ _ _ _ _); reflexivity.
Defined.
